(** * The meta-training control loop of [imaml.py]

    A shallow embedding of the driver [imaml.py]: the two phase runners
    [train] and [valid], the epoch routine [run_epoch], and [main].

    Conventions of the embedding.
    - Python [float]s are idealised as exact rationals ([Q]); the two values
      outside the rationals that the driver can meet, [nan] (the mean of an
      empty list) and [-inf], are separate constructors of [npfloat].
    - Python [int]s are [Z].
    - The driver is effectful: it mutates the learner, pulls batches from
      data loaders, prints, writes the result log and saves checkpoints.
      Effects are written in a state-and-exception monad [M] that also
      returns the chronological list of the observable [event]s of a run.
    - The collaborators that [imaml.py] imports (the learners of [gbml],
      [torchmeta]'s loaders, [utils.dict2tsv]) are parameters of the
      development, gathered in the classes [MetaLearner] and
      [Collaborators]. *)

From Stdlib Require Import ZArith QArith Qround Qreduction Lqa.
From Stdlib Require Import List Ascii String Bool Lia Permutation DecimalString.
Import ListNotations.

Set Implicit Arguments.

(* ================================================================== *)
(** ** Outcomes of Python calls *)

Inductive exn : Type :=
| ValueError (msg : string)
| KeyError (key : string)
| Failure (origin : string).

Inductive result (A : Type) : Type :=
| Ok (a : A)
| Raise (e : exn).

Arguments Ok {A} a.
Arguments Raise {A} e.

Definition is_ok {A : Type} (r : result A) : bool :=
  match r with Ok _ => true | Raise _ => false end.

(* ================================================================== *)
(** ** The fragment of numpy used by the driver *)

Module Numpy.

Inductive npfloat : Type :=
| NaN
| NegInf
| Num (q : Q).

(** [np.add.reduce] over a Python list of floats. *)
Definition np_sum (l : list Q) : Q := fold_left Qplus l 0%Q.

(** [np.mean(l)]: the sum divided by the number of items; the mean of the
    empty list is [nan] (numpy warns, it does not raise). *)
Definition np_mean (l : list Q) : npfloat :=
  match l with
  | [] => NaN
  | _ :: _ => Num (Qred (np_sum l / inject_Z (Z.of_nat (List.length l))))
  end.

(** [np.rint]: the nearest integer, halves going to the even neighbour. *)
Definition rint (x : Q) : Z :=
  let f := Qfloor x in
  match Qcompare (2 * (x - inject_Z f)) 1 with
  | Lt => f
  | Gt => (f + 1)%Z
  | Eq => if Z.even f then f else (f + 1)%Z
  end.

(** [np.round(x, decimals)]: scale by [10 ** decimals], [rint], scale
    back; [nan] and [-inf] are returned unchanged. *)
Definition np_round (x : npfloat) (decimals : Z) : npfloat :=
  match x with
  | Num q =>
      let scale := Qpower (inject_Z 10) decimals in
      Num (Qred (inject_Z (rint (q * scale)) / scale))
  | NaN => NaN
  | NegInf => NegInf
  end.

(** Python's [a > b] on floats: false as soon as one side is [nan]. *)
Definition np_gt (a b : npfloat) : bool :=
  match a, b with
  | Num x, Num y => negb (Qle_bool x y)
  | Num _, NegInf => true
  | _, _ => false
  end.

End Numpy.
Import Numpy.

(* ================================================================== *)
(** ** [collections.OrderedDict] with string keys *)

Inductive pyval : Type :=
| PyInt (z : Z)
| PyFloat (x : npfloat).

Module OrderedDict.

Definition t : Type := list (string * pyval).

Definition empty : t := [].

(** [d[key] = v]: replaces the value in place when the key is present,
    appends the pair at the end otherwise. *)
Fixpoint set (d : t) (key : string) (v : pyval) : t :=
  match d with
  | [] => [(key, v)]
  | (k, old) :: rest =>
      if String.eqb k key then (k, v) :: rest
      else (k, old) :: set rest key v
  end.

(** [d[key]], [None] standing for [KeyError]. *)
Fixpoint get (d : t) (key : string) : option pyval :=
  match d with
  | [] => None
  | (k, v) :: rest => if String.eqb k key then Some v else get rest key
  end.

Definition keys (d : t) : list string := map fst d.

End OrderedDict.

(* ================================================================== *)
(** ** Command-line arguments read by [main] *)

Record Args : Type := mkArgs {
  alg : string;
  load : bool;
  load_encoder : bool;
  lr_sched : bool;
  num_epoch : Z;
  num_train_batches : Z;
  num_valid_batches : Z;
  batch_size : Z;
  num_shot : Z;
  num_query : Z;
  num_way : Z;
  num_workers : Z;
  data_path : string;
  result_path : string;
  log_path : string
}.

(** The learner classes imported from [gbml]. *)
Inductive Alg : Type := MAML | Reptile | Neumann | CAVIA | iMAML | FOMAML.

Definition alg_name (a : Alg) : string :=
  match a with
  | MAML => "MAML"
  | Reptile => "Reptile"
  | Neumann => "Neumann"
  | CAVIA => "CAVIA"
  | iMAML => "iMAML"
  | FOMAML => "FOMAML"
  end.

(** The [if]/[elif] chain of [main], lines 89-102; [None] is the [else]
    branch. *)
Definition select_alg (name : string) : option Alg :=
  if String.eqb name "MAML" then Some MAML
  else if String.eqb name "Reptile" then Some Reptile
  else if String.eqb name "Neumann" then Some Neumann
  else if String.eqb name "CAVIA" then Some CAVIA
  else if String.eqb name "iMAML" then Some iMAML
  else if String.eqb name "FOMAML" then Some FOMAML
  else None.

(** The three [meta_split]s for which [main] builds a loader. *)
Inductive Split : Type := SplitTrain | SplitVal | SplitTest.

Definition Split_eqb (a b : Split) : bool :=
  match a, b with
  | SplitTrain, SplitTrain | SplitVal, SplitVal | SplitTest, SplitTest => true
  | _, _ => false
  end.

(* ================================================================== *)
(** ** Strings built by [main] *)

Definition str_of_int (z : Z) : string := NilZero.string_of_int (Z.to_int z).

Definition startswith_sep (s : string) : bool :=
  match s with
  | String c _ => Ascii.eqb c "/"%char
  | EmptyString => false
  end.

Fixpoint endswith_sep (s : string) : bool :=
  match s with
  | EmptyString => false
  | String c EmptyString => Ascii.eqb c "/"%char
  | String _ rest => endswith_sep rest
  end.

(** [posixpath.join(a, *p)]. *)
Definition os_path_join (a : string) (p : list string) : string :=
  fold_left
    (fun path b =>
       if startswith_sep b then b
       else if (String.eqb path "" || endswith_sep path)%bool
            then (path ++ b)%string
            else (path ++ "/" ++ b)%string)
    p a.

(** ['omniglot_' '{0}shot_{1}way'.format(args.num_shot, args.num_way)]: the
    two adjacent literals are one literal, formatted as a whole. *)
Definition task_tag (args : Args) : string :=
  ("omniglot_" ++ str_of_int (num_shot args) ++ "shot_"
     ++ str_of_int (num_way args) ++ "way")%string.

Definition log_filename (args : Args) : string :=
  os_path_join (result_path args)
    [alg args; (task_tag args ++ log_path args)%string].

Close Scope Q_scope.

(* ================================================================== *)
(** ** Collaborators of the driver *)

(** The interface that [imaml.py] uses of a learner object ([model]).
    A learner is a mutable Python object: every method takes the current
    state of the object and returns its next state together with what the
    call returned or raised.  [model_outer_loop l batch is_train grad] is
    [model.outer_loop(batch, is_train=is_train)] called while torch's
    gradient mode is [grad]; it returns a tuple of floats. *)
Class MetaLearner (Batch L : Type) : Type := {
  model_new : Alg -> Args -> L;
  model_outer_loop : L -> Batch -> bool -> bool -> L * result (list Q);
  model_save : L -> string -> L * result unit;
  model_load : L -> L * result unit;
  model_load_encoder : L -> L * result unit;
  model_lr_sched : L -> L * result unit
}.

(** [utils.dict2tsv] acting on the file system [F], and the batches that the
    [BatchMetaDataLoader] of a split yields on its [n]-th pass (a loader is
    iterated afresh by every [for] loop over it). *)
Class Collaborators (Batch F : Type) : Type := {
  dict2tsv : F -> OrderedDict.t -> string -> F * result unit;
  loader_pass : Args -> Split -> nat -> list Batch
}.

(** A data loader object: the split it was built for and the batches of
    each of its passes. *)
Record DataLoader (Batch : Type) : Type := mkLoader {
  dl_split : Split;
  dl_pass : nat -> list Batch
}.

(** Process-wide state of the best tracker that decorates [run_epoch]. *)
Record BestState : Type := mkBest {
  best_value : npfloat;
  best_epoch : Z
}.

Section Driver.

Context {Batch L F : Type}.
Context {learner : MetaLearner Batch L}.
Context {collab : Collaborators Batch F}.

(** *** Observable events *)

Inductive event : Type :=
| EvNew (a : Alg)
| EvLoad (ok : bool)
| EvLoadEncoder (ok : bool)
| EvLoader (s : Split)
| EvPrint (epoch : Z)
| EvNext (s : Split) (batch_idx : Z) (got : option Batch)
| EvOuterLoop (batch : Batch) (is_train grad : bool)
    (reply : result (list Q))
| EvDescribe (means : list npfloat)
| EvDict2tsv (res : OrderedDict.t) (filename : string) (ok : bool)
| EvSave (tag : string) (ok : bool)
| EvEmptyCache
| EvLrSched (ok : bool).

(** *** The world a run acts on *)

Record World : Type := mkWorld {
  w_model : L;                 (* the learner object [model] *)
  w_grad : bool;               (* torch.is_grad_enabled() *)
  w_best : BestState;          (* state of the decorator of run_epoch *)
  w_fs : F;                    (* the file system seen by dict2tsv *)
  w_passes : Split -> nat      (* passes already started on each loader *)
}.

Definition set_model (w : World) (l : L) : World :=
  mkWorld l (w_grad w) (w_best w) (w_fs w) (w_passes w).
Definition set_grad (w : World) (g : bool) : World :=
  mkWorld (w_model w) g (w_best w) (w_fs w) (w_passes w).
Definition set_best (w : World) (b : BestState) : World :=
  mkWorld (w_model w) (w_grad w) b (w_fs w) (w_passes w).
Definition set_fs (w : World) (f : F) : World :=
  mkWorld (w_model w) (w_grad w) (w_best w) f (w_passes w).
Definition set_passes (w : World) (p : Split -> nat) : World :=
  mkWorld (w_model w) (w_grad w) (w_best w) (w_fs w) p.

(** *** The monad: state, exceptions, and the events of the run *)

Definition M (A : Type) : Type := World -> result A * World * list event.

Definition ret {A : Type} (a : A) : M A := fun w => (Ok a, w, []).

Definition raise {A : Type} (e : exn) : M A := fun w => (Raise e, w, []).

Definition bind {A B : Type} (m : M A) (k : A -> M B) : M B :=
  fun w =>
    match m w with
    | (Ok a, w1, t1) => let '(r, w2, t2) := k a w1 in (r, w2, t1 ++ t2)
    | (Raise e, w1, t1) => (Raise e, w1, t1)
    end.

Definition emit (e : event) : M unit := fun w => (Ok tt, w, [e]).

Definition outcome {A : Type} (x : result A * World * list event) : result A :=
  fst (fst x).
Definition final {A : Type} (x : result A * World * list event) : World :=
  snd (fst x).
Definition events {A : Type} (x : result A * World * list event) : list event :=
  snd x.

End Driver.

Declare Scope monad_scope.
Delimit Scope monad_scope with monad.
Notation "x <- m ;; k" := (bind m (fun x => k))
  (at level 61, m at next level, right associativity) : monad_scope.
Notation "' pat <- m ;; k" := (bind m (fun x => match x with pat => k end))
  (at level 61, pat pattern, m at next level, right associativity) : monad_scope.
Notation "m ;; k" := (bind m (fun _ => k))
  (at level 61, right associativity) : monad_scope.

Local Open Scope monad_scope.

(* ================================================================== *)
(** ** The phase runners, the epoch routine and [main] *)

Section Phases.

Context {Batch L F : Type}.
Context {learner : MetaLearner Batch L}.
Context {collab : Collaborators Batch F}.

Local Abbreviation M := (@M Batch L F).
Local Abbreviation World := (@World L F).
Local Abbreviation event := (@event Batch).

(** *** Calls into the collaborators *)

Definition call_outer_loop (batch : Batch) (is_train : bool) : M (list Q) :=
  fun w =>
    let '(l', reply) :=
      model_outer_loop (w_model w) batch is_train (w_grad w) in
    (reply, set_model w l', [EvOuterLoop batch is_train (w_grad w) reply]).

Definition call_load : M unit :=
  fun w =>
    let '(l', r) := model_load (w_model w) in
    (r, set_model w l', [EvLoad (is_ok r)]).

Definition call_load_encoder : M unit :=
  fun w =>
    let '(l', r) := model_load_encoder (w_model w) in
    (r, set_model w l', [EvLoadEncoder (is_ok r)]).

Definition call_save (tag : string) : M unit :=
  fun w =>
    let '(l', r) := model_save (w_model w) tag in
    (r, set_model w l', [EvSave tag (is_ok r)]).

Definition call_lr_sched : M unit :=
  fun w =>
    let '(l', r) := model_lr_sched (w_model w) in
    (r, set_model w l', [EvLrSched (is_ok r)]).

Definition call_dict2tsv (res : OrderedDict.t) (filename : string) : M unit :=
  fun w =>
    let '(fs', r) := dict2tsv (w_fs w) res filename in
    (r, set_fs w fs', [EvDict2tsv res filename (is_ok r)]).

(** [iter(dataloader)]: starts the next pass over the loader. *)
Definition start_pass (dataloader : DataLoader Batch) : M (list Batch) :=
  fun w =>
    let s := dl_split dataloader in
    let n := w_passes w s in
    (Ok (dl_pass dataloader n),
     set_passes w (fun s' => if Split_eqb s' s then S n else w_passes w s'),
     []).

(** [with torch.no_grad():] around a computation; the previous gradient
    mode is restored on exit, also when the computation raises. *)
Definition no_grad {A : Type} (m : M A) : M A :=
  fun w =>
    let prev := w_grad w in
    let '(r, w', t) := m (set_grad w false) in
    (r, set_grad w' prev, t).

(** Tuple unpacking [a, b, c = reply] and [a, b = reply]. *)
Definition unpack3 (reply : list Q) : M (Q * Q * Q) :=
  match reply with
  | [a; b; c] => ret (a, b, c)
  | _ :: _ :: _ :: _ :: _ => raise (ValueError "too many values to unpack (expected 3)")
  | _ => raise (ValueError "not enough values to unpack (expected 3)")
  end.

Definition unpack2 (reply : list Q) : M (Q * Q) :=
  match reply with
  | [a; b] => ret (a, b)
  | _ :: _ :: _ :: _ => raise (ValueError "too many values to unpack (expected 2)")
  | _ => raise (ValueError "not enough values to unpack (expected 2)")
  end.

(** *** [train], lines 21-43 *)

(** The [for batch_idx, batch in enumerate(pbar)] loop of [train], from
    the iteration that asks for the batch of index [batch_idx] on; [pbar]
    holds the batches the loader has still to yield. *)
Fixpoint train_loop (num_train_batches : Z) (s : Split) (batch_idx : Z)
    (pbar : list Batch) (loss_list acc_list grad_list : list Q)
    : M (list Q * list Q * list Q) :=
  match pbar with
  | [] =>
      emit (EvNext s batch_idx None) ;;
      ret (loss_list, acc_list, grad_list)
  | batch :: pbar' =>
      emit (EvNext s batch_idx (Some batch)) ;;
      reply <- call_outer_loop batch true ;;
      '(loss_log, acc_log, grad_log) <- unpack3 reply ;;
      let loss_list := loss_list ++ [loss_log] in
      let acc_list := acc_list ++ [acc_log] in
      let grad_list := grad_list ++ [grad_log] in
      emit (EvDescribe [np_mean loss_list; np_mean acc_list; np_mean grad_list]) ;;
      if (batch_idx >=? num_train_batches)%Z
      then ret (loss_list, acc_list, grad_list)
      else train_loop num_train_batches s (batch_idx + 1) pbar'
             loss_list acc_list grad_list
  end.

Definition train (args : Args) (dataloader : DataLoader Batch)
    : M (npfloat * npfloat * npfloat) :=
  pbar <- start_pass dataloader ;;
  '(loss_list, acc_list, grad_list) <-
    train_loop (num_train_batches args) (dl_split dataloader) 0 pbar [] [] [] ;;
  let loss := np_round (np_mean loss_list) 4 in
  let acc := np_round (np_mean acc_list) 4 in
  let grad := np_round (np_mean grad_list) 4 in
  ret (loss, acc, grad).

(** *** [valid], lines 45-65 *)

Fixpoint valid_loop (num_valid_batches : Z) (s : Split) (batch_idx : Z)
    (pbar : list Batch) (loss_list acc_list : list Q)
    : M (list Q * list Q) :=
  match pbar with
  | [] =>
      emit (EvNext s batch_idx None) ;;
      ret (loss_list, acc_list)
  | batch :: pbar' =>
      emit (EvNext s batch_idx (Some batch)) ;;
      reply <- call_outer_loop batch false ;;
      '(loss_log, acc_log) <- unpack2 reply ;;
      let loss_list := loss_list ++ [loss_log] in
      let acc_list := acc_list ++ [acc_log] in
      emit (EvDescribe [np_mean loss_list; np_mean acc_list]) ;;
      if (batch_idx >=? num_valid_batches)%Z
      then ret (loss_list, acc_list)
      else valid_loop num_valid_batches s (batch_idx + 1) pbar'
             loss_list acc_list
  end.

Definition valid (args : Args) (dataloader : DataLoader Batch)
    : M (npfloat * npfloat) :=
  no_grad (
    pbar <- start_pass dataloader ;;
    '(loss_list, acc_list) <-
      valid_loop (num_valid_batches args) (dl_split dataloader) 0 pbar [] [] ;;
    let loss := np_round (np_mean loss_list) 4 in
    let acc := np_round (np_mean acc_list) 4 in
    ret (loss, acc)).

(** *** [run_epoch], lines 68-85, before decoration *)

Definition run_epoch (epoch : Z) (args : Args)
    (train_loader valid_loader test_loader : DataLoader Batch)
    : M OrderedDict.t :=
  let res := OrderedDict.empty in
  emit (EvPrint epoch) ;;
  '(train_loss, train_acc, train_grad) <- train args train_loader ;;
  '(valid_loss, valid_acc) <- valid args valid_loader ;;
  '(test_loss, test_acc) <- valid args test_loader ;;
  let res := OrderedDict.set res "epoch" (PyInt epoch) in
  let res := OrderedDict.set res "train_loss" (PyFloat train_loss) in
  let res := OrderedDict.set res "train_acc" (PyFloat train_acc) in
  let res := OrderedDict.set res "train_grad" (PyFloat train_grad) in
  let res := OrderedDict.set res "valid_loss" (PyFloat valid_loss) in
  let res := OrderedDict.set res "valid_acc" (PyFloat valid_acc) in
  let res := OrderedDict.set res "test_loss" (PyFloat test_loss) in
  let res := OrderedDict.set res "test_acc" (PyFloat test_acc) in
  ret res.

End Phases.

(* ================================================================== *)
(** ** The best tracker and [main] *)

(** Modelled from the spec: the initial state of [utils.BestTracker], which
    is not among the sources.  Spec 3: the best value is "initialized to
    worst-possible value before epoch 0"; the metric is maximised, so the
    worst value of a float is [-inf].  The spec does not fix the initial
    [best_epoch]; no statement below depends on it. *)
Definition BestState_init : BestState := mkBest NegInf 0.

Section Main.

Context {Batch L F : Type}.
Context {learner : MetaLearner Batch L}.
Context {collab : Collaborators Batch F}.

Local Abbreviation M := (@M Batch L F).
Local Abbreviation World := (@World L F).
Local Abbreviation event := (@event Batch).

(** Field access [res[key]] on an epoch result, at the type the field has. *)
Definition float_field (res : OrderedDict.t) (key : string) : M npfloat :=
  match OrderedDict.get res key with
  | Some (PyFloat x) => ret x
  | Some (PyInt z) => ret (Num (inject_Z z))
  | None => raise (KeyError key)
  end.

Definition int_field (res : OrderedDict.t) (key : string) : M Z :=
  match OrderedDict.get res key with
  | Some (PyInt z) => ret z
  | _ => raise (KeyError key)
  end.

Definition get_best : M BestState := fun w => (Ok (w_best w), w, []).
Definition put_best (b : BestState) : M unit := fun w => (Ok tt, set_best w b, []).

(** Modelled from the spec: [utils.BestTracker], the decorator applied to
    [run_epoch] at line 67, is not among the sources.  Spec 4.3: "after
    producing EpochResult for epoch e, compare EpochResult.valid_acc against
    BestState.best_value using strict greater-than; on strict improvement,
    update BestState to (valid_acc, e) and report is_best = true; otherwise
    report is_best = false."  [func] is the decorated call. *)
Definition BestTracker (func : M OrderedDict.t) : M (OrderedDict.t * bool) :=
  res <- func ;;
  valid_acc <- float_field res "valid_acc" ;;
  e <- int_field res "epoch" ;;
  best <- get_best ;;
  if np_gt valid_acc (best_value best)
  then put_best (mkBest valid_acc e) ;; ret (res, true)
  else ret (res, false).

(** The three blocks of lines 109-147: dataset, class splitter and batch
    loader of one split. *)
Definition make_loader (args : Args) (s : Split) : M (DataLoader Batch) :=
  emit (EvLoader s) ;;
  ret (mkLoader s (loader_pass args s)).

(** [for i in range(...)]: [count] iterations are left, the next one binds
    the loop variable to [i]. *)
Fixpoint for_range (count : nat) (i : Z) (body : Z -> M unit) : M unit :=
  match count with
  | O => ret tt
  | S count' => body i ;; for_range count' (i + 1) body
  end.

(** The body of the epoch loop, lines 151-161. *)
Definition epoch_iteration (args : Args)
    (train_loader valid_loader test_loader : DataLoader Batch) (epoch : Z)
    : M unit :=
  '(res, is_best) <-
    BestTracker (run_epoch epoch args train_loader valid_loader test_loader) ;;
  let filename := log_filename args in
  call_dict2tsv res filename ;;
  (if is_best then call_save (task_tag args) else ret tt) ;;
  emit EvEmptyCache ;;
  (if lr_sched args then call_lr_sched else ret tt).

(** [main] from line 104 on, once [model] exists. *)
Definition main_with_model (args : Args) : M unit :=
  (if load args then call_load
   else if load_encoder args then call_load_encoder
   else ret tt) ;;
  train_loader <- make_loader args SplitTrain ;;
  valid_loader <- make_loader args SplitVal ;;
  test_loader <- make_loader args SplitTest ;;
  for_range (Z.to_nat (num_epoch args)) 0
    (epoch_iteration args train_loader valid_loader test_loader).

(** [main], lines 87-163, started on the file system [fs].  When the
    process starts torch tracks gradients, the best tracker is in its
    initial state and no loader has been iterated.  The world is absent
    from the result when no learner was built. *)
Definition main (args : Args) (fs : F)
    : result unit * option World * list event :=
  match select_alg (alg args) with
  | None =>
      (Raise (ValueError "Not implemented Meta-Learning Algorithm"), None, [])
  | Some a =>
      let w0 := mkWorld (model_new a args) true BestState_init fs (fun _ => O) in
      let '(r, w, t) := main_with_model args w0 in
      (r, Some w, EvNew a :: t)
  end.

End Main.

(* ================================================================== *)
(** ** A stub learner, used to run the driver on concrete inputs *)

Module Stub.

(** The learner of the end-to-end scenario of the spec (section 8): its
    [outer_loop] returns [(1.0, 0.5, 0.0)] on every train batch and
    [(2.0, 0.3)] on every eval batch.  Its state counts the train steps
    taken, so a train step visibly mutates it.  Saving fails when asked to
    through [save_ok]. *)
Record state : Type := mkState { variant : Alg; steps : nat; save_ok : bool }.

#[export] Instance stub_learner : MetaLearner nat state := {|
  model_new := fun a _ => mkState a 0 true;
  model_outer_loop := fun l _ is_train _ =>
    if is_train
    then (mkState (variant l) (S (steps l)) (save_ok l), Ok [1%Q; (1#2)%Q; 0%Q])
    else (l, Ok [2%Q; (3#10)%Q]);
  model_save := fun l _ =>
    (l, if save_ok l then Ok tt else Raise (Failure "save"));
  model_load := fun l => (l, Ok tt);
  model_load_encoder := fun l => (l, Ok tt);
  model_lr_sched := fun l => (l, Ok tt)
|}.

(** The result log is the list of the rows written so far, newest last;
    every loader yields the batches [0, 1, ..., 9] on every pass. *)
#[export] Instance stub_collab
  : Collaborators nat (list (string * OrderedDict.t)) := {|
  dict2tsv := fun fs res filename => (fs ++ [(filename, res)], Ok tt);
  loader_pass := fun _ _ _ => seq 0 10
|}.

Definition stub_args (name : string) (epochs train_batches valid_batches : Z)
  : Args :=
  mkArgs name false false false epochs train_batches valid_batches
    32 5 15 5 4 "../data/" "./result" "result.tsv".

(** A world before the first epoch, and the loader of a split. *)
Definition stub_world : @World state (list (string * OrderedDict.t)) :=
  mkWorld (mkState MAML 0 true) true BestState_init [] (fun _ => O).

Definition stub_loader (s : Split) : DataLoader nat :=
  mkLoader s (fun _ => seq 0 10).

(** A learner that behaves as the stub learner except on two batches: on
    batch 3 its [outer_loop] raises, on batch 5 it returns a single value. *)
Definition flaky_learner : MetaLearner nat state := {|
  model_new := fun a _ => mkState a 0 true;
  model_outer_loop := fun l b is_train _ =>
    if Nat.eqb b 3 then (l, Raise (Failure "diverged"))
    else if Nat.eqb b 5 then (l, Ok [1%Q])
    else if is_train
    then (mkState (variant l) (S (steps l)) (save_ok l), Ok [1%Q; (1#2)%Q; 0%Q])
    else (l, Ok [2%Q; (3#10)%Q]);
  model_save := fun l _ =>
    (l, if save_ok l then Ok tt else Raise (Failure "save"));
  model_load := fun l => (l, Ok tt);
  model_load_encoder := fun l => (l, Ok tt);
  model_lr_sched := fun l => (l, Ok tt)
|}.

(** A learner that behaves as the stub learner, except that none of its
    checkpoint and scheduler methods ever raises. *)
Definition steady_learner : MetaLearner nat state := {|
  model_new := fun a _ => mkState a 0 true;
  model_outer_loop := fun l _ is_train _ =>
    if is_train
    then (mkState (variant l) (S (steps l)) (save_ok l), Ok [1%Q; (1#2)%Q; 0%Q])
    else (l, Ok [2%Q; (3#10)%Q]);
  model_save := fun l _ => (l, Ok tt);
  model_load := fun l => (l, Ok tt);
  model_load_encoder := fun l => (l, Ok tt);
  model_lr_sched := fun l => (l, Ok tt)
|}.

(** A learner that behaves as the stub learner, except that it finds no
    checkpoint to load. *)
Definition unloadable_learner : MetaLearner nat state := {|
  model_new := fun a _ => mkState a 0 true;
  model_outer_loop := fun l _ is_train _ =>
    if is_train
    then (mkState (variant l) (S (steps l)) (save_ok l), Ok [1%Q; (1#2)%Q; 0%Q])
    else (l, Ok [2%Q; (3#10)%Q]);
  model_save := fun l _ => (l, Ok tt);
  model_load := fun l => (l, Raise (Failure "no checkpoint"));
  model_load_encoder := fun l => (l, Raise (Failure "no encoder checkpoint"));
  model_lr_sched := fun l => (l, Ok tt)
|}.

(** The arguments of the stub runs with the three flags chosen. *)
Definition stub_args_with (load load_encoder lr_sched : bool)
    (epochs train_batches valid_batches : Z) : Args :=
  mkArgs "MAML" load load_encoder lr_sched epochs train_batches valid_batches
    32 5 15 5 4 "../data/" "./result" "result.tsv".

(** The same world with a learner whose [save] raises. *)
Definition failing_save_world : @World state (list (string * OrderedDict.t)) :=
  mkWorld (mkState MAML 0 false) true BestState_init [] (fun _ => O).

(** A loader that yields the given batches on every pass. *)
Definition fixed_loader (s : Split) (batches : list nat) : DataLoader nat :=
  mkLoader s (fun _ => batches).

(** The row of the end-to-end scenario of the spec (section 8). *)
Definition scenario_row : OrderedDict.t :=
  [("epoch"%string, PyInt 0);
   ("train_loss"%string, PyFloat (Num 1));
   ("train_acc"%string, PyFloat (Num (1 # 2)));
   ("train_grad"%string, PyFloat (Num 0));
   ("valid_loss"%string, PyFloat (Num 2));
   ("valid_acc"%string, PyFloat (Num (3 # 10)));
   ("test_loss"%string, PyFloat (Num 2));
   ("test_acc"%string, PyFloat (Num (3 # 10)))].

(** The calls of [run_epoch] of the first two epochs of [main] on the stub
    learner; both epochs reach the validation accuracy 0.3. *)
Definition two_epochs
  : list (@M nat state (list (string * OrderedDict.t)) OrderedDict.t) :=
  let args := stub_args "MAML" 2 2 1 in
  [run_epoch 0 args (stub_loader SplitTrain) (stub_loader SplitVal)
     (stub_loader SplitTest);
   run_epoch 1 args (stub_loader SplitTrain) (stub_loader SplitVal)
     (stub_loader SplitTest)].

End Stub.

(* ================================================================== *)
(** ** Vocabulary of the statements *)

(** Spec-level vocabulary: the arithmetic mean of a sequence, and what it
    means for [r] to be [x] rounded to 4 decimal digits: [r] is a multiple
    of [10 ** -4] at distance at most half a unit of the fourth decimal
    place from [x]. *)
Definition arithmetic_mean (values : list Q) : Q :=
  (fold_right Qplus 0 values / inject_Z (Z.of_nat (List.length values)))%Q.

Definition rounded_to_4_decimals (x r : Q) : Prop :=
  (exists z : Z, r == inject_Z z / 10000)%Q /\
  (- (1 # 20000) <= r - x <= 1 # 20000)%Q.

(** The summary of a phase as a function of the sequence of the tuples
    that [outer_loop] returned in it: every field is aggregated on its
    own. *)
Definition field (i : nat) (tuples : list (list Q)) : list Q :=
  map (fun reply => nth i reply 0%Q) tuples.

Definition aggregate (values : list Q) : npfloat :=
  np_round (np_mean values) 4.

Definition summary3 (tuples : list (list Q)) : npfloat * npfloat * npfloat :=
  (aggregate (field 0 tuples), aggregate (field 1 tuples),
   aggregate (field 2 tuples)).

Definition summary2 (tuples : list (list Q)) : npfloat * npfloat :=
  (aggregate (field 0 tuples), aggregate (field 1 tuples)).

(** Number of batches a phase loop processes when it is about to ask for
    the batch of index [batch_idx], the budget is [k], and the loader does
    not run dry: the loop stops after the first batch whose index is at
    least [k]. *)
Definition batches_run (k batch_idx : Z) : nat :=
  Z.to_nat (Z.max 1 (k - batch_idx + 1)).

Section Observations.

Context {Batch : Type}.

Local Abbreviation event := (@event Batch).

(** The batches handed to [outer_loop], in order. *)
Definition processed (t : list event) : list Batch :=
  flat_map (fun e => match e with EvOuterLoop b _ _ _ => [b] | _ => [] end) t.

(** The batch indices asked of a loader, in order. *)
Definition requested (t : list event) : list Z :=
  flat_map (fun e => match e with EvNext _ i _ => [i] | _ => [] end) t.

(** The tuples returned by the calls of [outer_loop], in order. *)
Definition replies (t : list event) : list (list Q) :=
  flat_map
    (fun e => match e with EvOuterLoop _ _ _ (Ok r) => [r] | _ => [] end) t.

(** The [(is_train, grad mode)] of the calls of [outer_loop], in order. *)
Definition modes (t : list event) : list (bool * bool) :=
  flat_map
    (fun e => match e with EvOuterLoop _ tr g _ => [(tr, g)] | _ => [] end) t.

Definition is_load (e : event) : bool :=
  match e with EvLoad _ | EvLoadEncoder _ => true | _ => false end.

Definition is_save (e : event) : bool :=
  match e with EvSave _ _ => true | _ => false end.


(** The events of [run_epoch]: printing and the work on batches. *)
Definition is_phase (e : event) : bool :=
  match e with
  | EvPrint _ | EvNext _ _ _ | EvOuterLoop _ _ _ _ | EvDescribe _ => true
  | _ => false
  end.

(** The events of an epoch iteration: everything but what [main] does
    before its loop. *)
Definition is_epoch (e : event) : bool :=
  match e with
  | EvNew _ | EvLoad _ | EvLoadEncoder _ | EvLoader _ => false
  | _ => true
  end.

End Observations.

Section Contracts.

Context {Batch L : Type}.
Context (learner : MetaLearner Batch L).

(** The shape of the tuples of the shared contract
    [outer_loop(batch, is_train) -> (loss, accuracy, [grad_norm])]: three
    floats when training, two when evaluating, and no exception. *)
Definition replies_train : Prop :=
  forall l b g, exists l' loss acc grad,
    model_outer_loop l b true g = (l', Ok [loss; acc; grad]).

Definition replies_eval : Prop :=
  forall l b g, exists l' loss acc,
    model_outer_loop l b false g = (l', Ok [loss; acc]).

(** Modelled from the spec: the learners of [gbml], whose [outer_loop]
    decides whether an evaluation step writes to the parameters, are not
    among the sources.  Spec 4.1: "For phase = eval: learner parameters
    must NOT mutate (no-gradient-tracking evaluation)".  The state of the
    learner is the same after a call with [is_train=False] made while
    gradient tracking is off. *)
Definition eval_read_only : Prop :=
  forall l b, fst (model_outer_loop l b false false) = l.

End Contracts.

Section Harness.

Context {Batch L F : Type}.

Local Abbreviation M := (@M Batch L F).

(** A run of the best tracker over the decorated functions [funcs], one
    decorated call per epoch; it returns, for every epoch, the epoch
    result, the [is_best] reported and the state of the tracker after the
    call. *)
Fixpoint tracked_run (funcs : list (M OrderedDict.t))
    : M (list (OrderedDict.t * bool * BestState)) :=
  match funcs with
  | [] => ret []
  | func :: funcs' =>
      '(res, is_best) <- BestTracker func ;;
      st <- get_best ;;
      rest <- tracked_run funcs' ;;
      ret ((res, is_best, st) :: rest)
  end.

(** [func] is an epoch routine for epoch [e]: whatever the world, it
    returns a result that carries the epoch index [e] and a number as
    validation accuracy, and it does not touch the tracker. *)
Definition yields_epoch (func : M OrderedDict.t) (e : Z) : Prop :=
  forall w, exists res w' t v,
    func w = (Ok res, w', t) /\
    w_best w' = w_best w /\
    OrderedDict.get res "valid_acc" = Some (PyFloat (Num v)) /\
    OrderedDict.get res "epoch" = Some (PyInt e).

(** The functions [funcs] are epoch routines for the epochs [e], [e + 1],
    and so on. *)
Fixpoint yields_epochs (e : Z) (funcs : list (M OrderedDict.t)) : Prop :=
  match funcs with
  | [] => True
  | func :: funcs' => yields_epoch func e /\ yields_epochs (e + 1) funcs'
  end.

End Harness.

(** The validation accuracy carried by an epoch result. *)
Definition valid_acc_of (res : OrderedDict.t) : Q :=
  match OrderedDict.get res "valid_acc" with
  | Some (PyFloat (Num v)) => v
  | _ => 0%Q
  end.

Section Frames.

Context {L F : Type}.

(** What the phase runners leave alone: everything in the world except
    the learner and the pass counters of the loaders. *)
Definition same_frame (w w' : @World L F) : Prop :=
  w_grad w' = w_grad w /\ w_best w' = w_best w /\ w_fs w' = w_fs w.

End Frames.

(* ================================================================== *)
(** ** The two phase runners as one function of the phase *)

Inductive Phase : Type := TrainPhase | EvalPhase.

(** The budget a phase reads from the arguments. *)
Definition max_batches (phase : Phase) (args : Args) : Z :=
  match phase with
  | TrainPhase => num_train_batches args
  | EvalPhase => num_valid_batches args
  end.

(** The summary of a phase as the list of its fields: loss, accuracy and,
    for a train phase, the gradient norm. *)
Definition summary (phase : Phase) (tuples : list (list Q)) : list npfloat :=
  match phase with
  | TrainPhase =>
      let '(loss, acc, grad) := summary3 tuples in [loss; acc; grad]
  | EvalPhase =>
      let '(loss, acc) := summary2 tuples in [loss; acc]
  end.

Section RunPhase.

Context {Batch L F : Type}.
Context {learner : MetaLearner Batch L}.

Local Abbreviation M := (@M Batch L F).

(** [train] or [valid], returning the fields of the summary as a list. *)
Definition run_phase (phase : Phase) (args : Args)
    (dataloader : DataLoader Batch) : M (list npfloat) :=
  match phase with
  | TrainPhase =>
      '(loss, acc, grad) <- train args dataloader ;; ret [loss; acc; grad]
  | EvalPhase =>
      '(loss, acc) <- valid args dataloader ;; ret [loss; acc]
  end.

(** The shape of the contract of [outer_loop] that a phase relies on. *)
Definition replies_in (phase : Phase) : Prop :=
  match phase with
  | TrainPhase => replies_train learner
  | EvalPhase => replies_eval learner
  end.

End RunPhase.

(* ================================================================== *)
(** ** Properties of the events of a computation *)

Section EventProperties.

Context {Batch L F : Type}.

Local Abbreviation M := (@M Batch L F).
Local Abbreviation event := (@event Batch).

(** Every event of every run of [m] passes the test [P]. *)
Definition emits_only {A : Type} (P : event -> bool) (m : M A) : Prop :=
  forall w, Forall (fun e => P e = true) (events (m w)).


End EventProperties.

(* ================================================================== *)
(** ** Further vocabulary: what a phase expects of single batches *)

(** Whether a phase trains, and how many values it unpacks from a reply of
    [outer_loop] (lines 30 and 54). *)
Definition phase_is_train (phase : Phase) : bool :=
  match phase with TrainPhase => true | EvalPhase => false end.

Definition arity (phase : Phase) : nat :=
  match phase with TrainPhase => 3 | EvalPhase => 2 end.


Section BatchContracts.

Context {Batch L : Type}.
Context (learner : MetaLearner Batch L).

(** On the batch [b], whatever the state of the learner and the gradient
    mode, [outer_loop] returns a tuple of the length the phase unpacks. *)
Definition replies_on (phase : Phase) (b : Batch) : Prop :=
  forall l g, exists l' tuple,
    model_outer_loop l b (phase_is_train phase) g = (l', Ok tuple) /\
    List.length tuple = arity phase.

(** On the batch [b], [outer_loop] raises [e]. *)
Definition raises_on (phase : Phase) (b : Batch) (e : exn) : Prop :=
  forall l g, exists l',
    model_outer_loop l b (phase_is_train phase) g = (l', Raise e).

(** On the batch [b], [outer_loop] returns a tuple of another length than
    the phase unpacks. *)
Definition misshapes_on (phase : Phase) (b : Batch) : Prop :=
  forall l g, exists l' tuple,
    model_outer_loop l b (phase_is_train phase) g = (l', Ok tuple) /\
    List.length tuple <> arity phase.

(** No method of the learner that [main] calls outside the phases raises. *)
Definition learner_never_raises : Prop :=
  (forall l, snd (model_load l) = Ok tt) /\
  (forall l, snd (model_load_encoder l) = Ok tt) /\
  (forall l tag, snd (model_save l tag) = Ok tt) /\
  (forall l, snd (model_lr_sched l) = Ok tt).

End BatchContracts.

Section SinkContracts.

Context {Batch F : Type}.
Context (collab : Collaborators Batch F).

(** [dict2tsv] never raises. *)
Definition sink_never_raises : Prop :=
  forall fs res filename, snd (dict2tsv fs res filename) = Ok tt.

End SinkContracts.

Section MoreObservations.

Context {Batch : Type}.

Local Abbreviation event := (@event Batch).

(** The progress descriptions shown, in order. *)
Definition described (t : list event) : list (list npfloat) :=
  flat_map (fun e => match e with EvDescribe m => [m] | _ => [] end) t.

(** The calls of [dict2tsv]: row, file name and whether the call returned. *)
Definition writes (t : list event) : list (OrderedDict.t * string * bool) :=
  flat_map
    (fun e => match e with EvDict2tsv res fn ok => [(res, fn, ok)] | _ => [] end)
    t.

(** The splits for which a loader was built, in order. *)
Definition loaders_built (t : list event) : list Split :=
  flat_map (fun e => match e with EvLoader s => [s] | _ => [] end) t.

Definition is_empty_cache (e : event) : bool :=
  match e with EvEmptyCache => true | _ => false end.

Definition is_lr_sched (e : event) : bool :=
  match e with EvLrSched _ => true | _ => false end.

End MoreObservations.

(** The pass counters after one more pass over the loader of [s]. *)
Definition one_more_pass (s : Split) (passes : Split -> nat) (s' : Split) : nat :=
  if Split_eqb s' s then S (passes s) else passes s'.

Section FramePredicates.

Context {Batch L F : Type}.

Local Abbreviation M := (@M Batch L F).

(** Every run of [m] ends in a world with the gradient mode, the tracker
    and the file system it started with. *)
Definition keeps_frame {A : Type} (m : M A) : Prop :=
  forall w, same_frame w (final (m w)).

End FramePredicates.

Section RunSummaries.

Context {Batch L F : Type}.

(** A run [x] started in the world [w] returned after [n] complete epoch
    iterations: [n] rows written, the CUDA cache emptied [n] times, the
    scheduler stepped [n] times when [lr] holds and never otherwise, at
    most [n] checkpoints saved, no loader built, every loader iterated [n]
    more times and the gradient mode as before. *)
Definition iteration_done (lr : bool) (n : nat) (w : @World L F)
    (x : result unit * @World L F * list (@event Batch)) : Prop :=
  outcome x = Ok tt /\
  List.length (writes (events x)) = n /\
  List.length (filter is_empty_cache (events x)) = n /\
  List.length (filter is_lr_sched (events x)) = (if lr then n else 0%nat) /\
  (List.length (filter is_save (events x)) <= n)%nat /\
  loaders_built (events x) = [] /\
  (forall s, w_passes (final x) s = (w_passes w s + n)%nat) /\
  w_grad (final x) = w_grad w.

End RunSummaries.

Section EpochBatches.

Context {Batch F : Type}.
Context {collab : Collaborators Batch F}.

(** The batches that the three phases of an epoch process when every
    loader is on its pass number [e] and no call raises: the first batches
    of each pass up to the budget of the phase. *)
Definition epoch_batches (args : Args) (e : nat) : list Batch :=
  firstn (batches_run (num_train_batches args) 0)
    (loader_pass args SplitTrain e) ++
  firstn (batches_run (num_valid_batches args) 0)
    (loader_pass args SplitVal e) ++
  firstn (batches_run (num_valid_batches args) 0)
    (loader_pass args SplitTest e).

End EpochBatches.

(* ================================================================== *)
(** * Facts and theorems *)

Import Stub.

(** ** Facts about the numpy fragment *)

Module NumpyFacts.

Local Open Scope Q_scope.

Lemma fold_left_Qplus_shift (l : list Q) (a : Q) :
  fold_left Qplus l a == a + fold_left Qplus l 0.
Proof.
  revert a; induction l as [|x l IH]; intro a; simpl.
  - lra.
  - rewrite (IH (a + x)), (IH (0 + x)). lra.
Qed.

Lemma np_sum_cons (x : Q) (l : list Q) : np_sum (x :: l) == x + np_sum l.
Proof.
  unfold np_sum; simpl. rewrite fold_left_Qplus_shift. lra.
Qed.

Lemma np_sum_fold_right (l : list Q) : np_sum l == fold_right Qplus 0 l.
Proof.
  induction l as [|x l IH]; [reflexivity|].
  rewrite np_sum_cons, IH. reflexivity.
Qed.



(** [rint] returns an integer at distance at most one half. *)
Lemma rint_close (x : Q) :
  - (1 # 2) <= inject_Z (rint x) - x <= 1 # 2.
Proof.
  unfold rint.
  pose proof (Qfloor_le x) as Hlo. pose proof (Qlt_floor x) as Hhi.
  rewrite inject_Z_plus in Hhi.
  change (inject_Z 1) with 1 in Hhi.
  destruct (Qcompare_spec (2 * (x - inject_Z (Qfloor x))) 1) as [He|Hl|Hg].
  - destruct (Z.even (Qfloor x)).
    + lra.
    + rewrite inject_Z_plus. change (inject_Z 1) with 1. lra.
  - lra.
  - rewrite inject_Z_plus. change (inject_Z 1) with 1. lra.
Qed.

Lemma scale4 : Qpower (inject_Z 10) 4 == 10000.
Proof. reflexivity. Qed.

Lemma np_round4_rounds (q : Q) :
  exists r, np_round (Num q) 4 = Num r /\ rounded_to_4_decimals q r.
Proof.
  eexists; split; [reflexivity|].
  set (z := rint (q * Qpower (inject_Z 10) 4)).
  pose proof (rint_close (q * Qpower (inject_Z 10) 4)) as Hz. fold z in Hz.
  split.
  - exists z. rewrite Qred_correct, scale4. reflexivity.
  - rewrite Qred_correct. rewrite scale4 in Hz |- *.
    assert (E : inject_Z z / 10000 - q == (inject_Z z - q * 10000) / 10000)
      by (field; discriminate).
    rewrite E. generalize dependent (inject_Z z). intros y Hy.
    unfold Qdiv. change (/ 10000) with (1 # 10000). lra.
Qed.

Lemma np_mean_arithmetic (l : list Q) :
  l <> [] -> exists m, np_mean l = Num m /\ m == arithmetic_mean l.
Proof.
  destruct l as [|x l]; [congruence|]. intros _.
  eexists; split; [reflexivity|].
  rewrite Qred_correct. unfold arithmetic_mean.
  rewrite np_sum_fold_right. reflexivity.
Qed.

(** The aggregation of one metric of a phase: the mean, rounded once. *)
Lemma round_mean_spec (l : list Q) :
  l <> [] ->
  exists r, np_round (np_mean l) 4 = Num r /\
            rounded_to_4_decimals (arithmetic_mean l) r.
Proof.
  intro Hne. destruct (np_mean_arithmetic Hne) as (m & Em & Hm).
  rewrite Em. destruct (np_round4_rounds m) as (r & Er & (z & Hz) & Hr).
  exists r. split; [exact Er|]. split; [exists z; exact Hz|].
  rewrite <- Hm. exact Hr.
Qed.

End NumpyFacts.
Import NumpyFacts.

Section LoopFacts.

Context {Batch L F : Type}.
Context {learner : MetaLearner Batch L}.
Context {collab : Collaborators Batch F}.

Local Abbreviation M := (@M Batch L F).
Local Abbreviation World := (@World L F).
Local Abbreviation event := (@event Batch).

Lemma batches_run_stop (k idx : Z) :
  (idx >=? k)%Z = true -> batches_run k idx = 1%nat.
Proof. unfold batches_run. intro H. apply Z.geb_le in H. lia. Qed.

Lemma batches_run_go (k idx : Z) :
  (idx >=? k)%Z = false -> batches_run k idx = S (batches_run k (idx + 1)).
Proof.
  unfold batches_run. intro H.
  assert (idx < k)%Z by (destruct (Z.geb_spec idx k); [discriminate|lia]).
  lia.
Qed.

Lemma batches_run_pos (k idx : Z) : (1 <= batches_run k idx)%nat.
Proof. unfold batches_run. lia. Qed.

Lemma indices_S (idx : Z) (n : nat) :
  map (fun i => (idx + Z.of_nat i)%Z) (seq 0 (S n)) =
  idx :: map (fun i => (idx + 1 + Z.of_nat i)%Z) (seq 0 n).
Proof.
  cbn [seq map]. f_equal; [lia|].
  rewrite <- seq_shift, map_map. apply map_ext. intro i. lia.
Qed.

(** One iteration of the loop of [train] when [outer_loop] returns a
    triple. *)
Lemma train_loop_cons k s idx (b : Batch) pbar ll al gl (w : World) l' lo ac gr :
  model_outer_loop (w_model w) b true (w_grad w) = (l', Ok [lo; ac; gr]) ->
  train_loop k s idx (b :: pbar) ll al gl w =
  let pre := [EvNext s idx (Some b);
              EvOuterLoop b true (w_grad w) (Ok [lo; ac; gr]);
              EvDescribe [np_mean (ll ++ [lo]); np_mean (al ++ [ac]);
                          np_mean (gl ++ [gr])]] in
  if (idx >=? k)%Z
  then (Ok (ll ++ [lo], al ++ [ac], gl ++ [gr]), set_model w l', pre)
  else let '(r, w2, t2) :=
         train_loop k s (idx + 1) pbar (ll ++ [lo]) (al ++ [ac]) (gl ++ [gr])
           (set_model w l') in
       (r, w2, pre ++ t2).
Proof.
  intro E. cbn [train_loop]. unfold bind, emit, call_outer_loop.
  rewrite E. cbn.
  destruct (idx >=? k)%Z; [reflexivity|].
  destruct (train_loop k s (idx + 1) pbar _ _ _ _) as [[r w2] t2].
  reflexivity.
Qed.

(** One run of the loop of [train] with a learner that keeps to the shape
    of the contract. *)
Lemma train_loop_run (Htrain : replies_train learner) :
  forall (pbar : list Batch) k s idx ll al gl (w : World),
    let x := train_loop k s idx pbar ll al gl w in
    outcome x = Ok (ll ++ field 0 (replies (events x)),
                    al ++ field 1 (replies (events x)),
                    gl ++ field 2 (replies (events x))) /\
    processed (events x) = firstn (batches_run k idx) pbar /\
    List.length (replies (events x)) = List.length (processed (events x)) /\
    requested (events x) =
      map (fun i => (idx + Z.of_nat i)%Z)
          (seq 0 (Nat.min (S (List.length pbar)) (batches_run k idx))) /\
    same_frame w (final x) /\ w_passes (final x) = w_passes w.
Proof.
  induction pbar as [|b pbar IH]; intros k s idx ll al gl w x; subst x.
  - cbn. rewrite !app_nil_r.
    pose proof (batches_run_pos k idx).
    destruct (batches_run k idx) as [|n]; [lia|].
    cbn. rewrite Z.add_0_r. unfold same_frame. auto 10.
  - destruct (Htrain (w_model w) b (w_grad w)) as (l' & lo & ac & gr & E).
    rewrite train_loop_cons with (l' := l') (lo := lo) (ac := ac) (gr := gr)
      by exact E.
    cbv zeta.
    destruct (idx >=? k)%Z eqn:Hstop.
    + rewrite (batches_run_stop _ _ Hstop).
      cbn. rewrite Z.add_0_r. unfold same_frame. auto 10.
    + rewrite (batches_run_go _ _ Hstop).
      specialize (IH k s (idx + 1)%Z (ll ++ [lo]) (al ++ [ac]) (gl ++ [gr])
                     (set_model w l')).
      destruct (train_loop k s (idx + 1) pbar (ll ++ [lo]) (al ++ [ac])
                  (gl ++ [gr]) (set_model w l')) as [[r w2] t2].
      cbn [outcome final events fst snd] in IH |- *.
      destruct IH as (Hr & Hp & Hlen & Hq & Hf & Hpass).
      unfold processed, replies, requested, field in *.
      cbn [flat_map app map nth List.length] in *.
      rewrite Hr, Hlen, Hp, Hq, <- !app_assoc, <- Nat.succ_min_distr, indices_S.
      cbn [app firstn List.length].
      unfold same_frame in *. cbn in Hf, Hpass. intuition auto.
Qed.

(** One iteration of the loop of [valid] when [outer_loop] returns a
    pair. *)
Lemma valid_loop_cons k s idx (b : Batch) pbar ll al (w : World) l' lo ac :
  model_outer_loop (w_model w) b false (w_grad w) = (l', Ok [lo; ac]) ->
  valid_loop k s idx (b :: pbar) ll al w =
  let pre := [EvNext s idx (Some b);
              EvOuterLoop b false (w_grad w) (Ok [lo; ac]);
              EvDescribe [np_mean (ll ++ [lo]); np_mean (al ++ [ac])]] in
  if (idx >=? k)%Z
  then (Ok (ll ++ [lo], al ++ [ac]), set_model w l', pre)
  else let '(r, w2, t2) :=
         valid_loop k s (idx + 1) pbar (ll ++ [lo]) (al ++ [ac])
           (set_model w l') in
       (r, w2, pre ++ t2).
Proof.
  intro E. cbn [valid_loop]. unfold bind, emit, call_outer_loop.
  rewrite E. cbn.
  destruct (idx >=? k)%Z; [reflexivity|].
  destruct (valid_loop k s (idx + 1) pbar _ _ _) as [[r w2] t2].
  reflexivity.
Qed.

Lemma valid_loop_run (Heval : replies_eval learner) :
  forall (pbar : list Batch) k s idx ll al (w : World),
    let x := valid_loop k s idx pbar ll al w in
    outcome x = Ok (ll ++ field 0 (replies (events x)),
                    al ++ field 1 (replies (events x))) /\
    processed (events x) = firstn (batches_run k idx) pbar /\
    List.length (replies (events x)) = List.length (processed (events x)) /\
    requested (events x) =
      map (fun i => (idx + Z.of_nat i)%Z)
          (seq 0 (Nat.min (S (List.length pbar)) (batches_run k idx))) /\
    same_frame w (final x) /\ w_passes (final x) = w_passes w.
Proof.
  induction pbar as [|b pbar IH]; intros k s idx ll al w x; subst x.
  - cbn. rewrite !app_nil_r.
    pose proof (batches_run_pos k idx).
    destruct (batches_run k idx) as [|n]; [lia|].
    cbn. rewrite Z.add_0_r. unfold same_frame. auto 10.
  - destruct (Heval (w_model w) b (w_grad w)) as (l' & lo & ac & E).
    rewrite valid_loop_cons with (l' := l') (lo := lo) (ac := ac) by exact E.
    cbv zeta.
    destruct (idx >=? k)%Z eqn:Hstop.
    + rewrite (batches_run_stop _ _ Hstop).
      cbn. rewrite Z.add_0_r. unfold same_frame. auto 10.
    + rewrite (batches_run_go _ _ Hstop).
      specialize (IH k s (idx + 1)%Z (ll ++ [lo]) (al ++ [ac])
                     (set_model w l')).
      destruct (valid_loop k s (idx + 1) pbar (ll ++ [lo]) (al ++ [ac])
                  (set_model w l')) as [[r w2] t2].
      cbn [outcome final events fst snd] in IH |- *.
      destruct IH as (Hr & Hp & Hlen & Hq & Hf & Hpass).
      unfold processed, replies, requested, field in *.
      cbn [flat_map app map nth List.length] in *.
      rewrite Hr, Hlen, Hp, Hq, <- !app_assoc, <- Nat.succ_min_distr, indices_S.
      cbn [app firstn List.length].
      unfold same_frame in *. cbn in Hf, Hpass. intuition auto.
Qed.

(** When the loader runs dry before the loop stops by itself, the last
    thing the loop does is the request that finds the loader exhausted. *)
Lemma train_loop_dry (Htrain : replies_train learner) :
  forall (pbar : list Batch) k s idx ll al gl (w : World),
    (List.length pbar < batches_run k idx)%nat ->
    exists t0,
      events (train_loop k s idx pbar ll al gl w) =
      t0 ++ [EvNext s (idx + Z.of_nat (List.length pbar)) None].
Proof.
  induction pbar as [|b pbar IH]; intros k s idx ll al gl w Hlen.
  - exists []. cbn. rewrite Z.add_0_r. reflexivity.
  - destruct (Htrain (w_model w) b (w_grad w)) as (l' & lo & ac & gr & E).
    rewrite train_loop_cons with (l' := l') (lo := lo) (ac := ac) (gr := gr)
      by exact E.
    cbv zeta.
    destruct (idx >=? k)%Z eqn:Hstop.
    + rewrite (batches_run_stop _ _ Hstop) in Hlen. cbn in Hlen. lia.
    + rewrite (batches_run_go _ _ Hstop) in Hlen. cbn [List.length] in Hlen.
      destruct (IH k s (idx + 1)%Z (ll ++ [lo]) (al ++ [ac]) (gl ++ [gr])
                   (set_model w l')) as (t0 & Ht0); [lia|].
      destruct (train_loop k s (idx + 1) pbar _ _ _ _) as [[r w2] t2].
      cbn [events snd] in Ht0 |- *. subst t2.
      eexists. rewrite app_assoc. f_equal. f_equal. f_equal.
      cbn [List.length]. lia.
Qed.

Lemma valid_loop_dry (Heval : replies_eval learner) :
  forall (pbar : list Batch) k s idx ll al (w : World),
    (List.length pbar < batches_run k idx)%nat ->
    exists t0,
      events (valid_loop k s idx pbar ll al w) =
      t0 ++ [EvNext s (idx + Z.of_nat (List.length pbar)) None].
Proof.
  induction pbar as [|b pbar IH]; intros k s idx ll al w Hlen.
  - exists []. cbn. rewrite Z.add_0_r. reflexivity.
  - destruct (Heval (w_model w) b (w_grad w)) as (l' & lo & ac & E).
    rewrite valid_loop_cons with (l' := l') (lo := lo) (ac := ac) by exact E.
    cbv zeta.
    destruct (idx >=? k)%Z eqn:Hstop.
    + rewrite (batches_run_stop _ _ Hstop) in Hlen. cbn in Hlen. lia.
    + rewrite (batches_run_go _ _ Hstop) in Hlen. cbn [List.length] in Hlen.
      destruct (IH k s (idx + 1)%Z (ll ++ [lo]) (al ++ [ac])
                   (set_model w l')) as (t0 & Ht0); [lia|].
      destruct (valid_loop k s (idx + 1) pbar _ _ _) as [[r w2] t2].
      cbn [events snd] in Ht0 |- *. subst t2.
      eexists. rewrite app_assoc. f_equal. f_equal. f_equal.
      cbn [List.length]. lia.
Qed.

(** The world in which the loop of a phase starts: the pass counter of the
    loader has been advanced. *)
Lemma train_unfold (args : Args) (dl : DataLoader Batch) (w : World) :
  train args dl w =
  let '(r, w', t) :=
    train_loop (num_train_batches args) (dl_split dl) 0
      (dl_pass dl (w_passes w (dl_split dl))) [] [] []
      (final (start_pass dl w)) in
  match r with
  | Ok (ll, al, gl) =>
      (Ok (aggregate ll, aggregate al, aggregate gl), w', t)
  | Raise e => (Raise e, w', t)
  end.
Proof.
  unfold train, bind, start_pass. cbn [final fst snd app].
  destruct (train_loop _ _ _ _ _ _ _ _) as [[[[[ll al] gl]|e] w'] t];
    cbn; rewrite ?app_nil_r; reflexivity.
Qed.

Lemma valid_unfold (args : Args) (dl : DataLoader Batch) (w : World) :
  valid args dl w =
  let '(r, w', t) :=
    valid_loop (num_valid_batches args) (dl_split dl) 0
      (dl_pass dl (w_passes w (dl_split dl))) [] []
      (final (start_pass dl (set_grad w false))) in
  match r with
  | Ok (ll, al) => (Ok (aggregate ll, aggregate al), set_grad w' (w_grad w), t)
  | Raise e => (Raise e, set_grad w' (w_grad w), t)
  end.
Proof.
  unfold valid, no_grad, bind, start_pass. cbn [final fst snd app w_passes set_grad].
  destruct (valid_loop _ _ _ _ _ _ _) as [[[[ll al]|e] w'] t];
    cbn; rewrite ?app_nil_r; reflexivity.
Qed.

Lemma indices_0 (n : nat) :
  map (fun i => (0 + Z.of_nat i)%Z) (seq 0 n) = map Z.of_nat (seq 0 n).
Proof. apply map_ext. intro i. lia. Qed.

(** A train phase with a learner that keeps to the shape of the contract. *)
Lemma train_run (Htrain : replies_train learner)
    (args : Args) (dl : DataLoader Batch) (w : World) :
  let pbar := dl_pass dl (w_passes w (dl_split dl)) in
  let k := num_train_batches args in
  let x := train args dl w in
  outcome x = Ok (summary3 (replies (events x))) /\
  processed (events x) = firstn (batches_run k 0) pbar /\
  List.length (replies (events x)) = List.length (processed (events x)) /\
  requested (events x) =
    map Z.of_nat (seq 0 (Nat.min (S (List.length pbar)) (batches_run k 0))) /\
  same_frame w (final x) /\
  ((List.length pbar < batches_run k 0)%nat ->
   exists t0,
     events x = t0 ++ [EvNext (dl_split dl) (Z.of_nat (List.length pbar)) None]).
Proof.
  intros pbar k x. subst x. rewrite train_unfold. fold pbar. fold k.
  pose proof (train_loop_run Htrain pbar k (dl_split dl) 0 [] [] []
                (final (start_pass dl w))) as H.
  pose proof (train_loop_dry Htrain pbar k (dl_split dl) 0 [] [] []
                (final (start_pass dl w))) as Hdry.
  destruct (train_loop k (dl_split dl) 0 pbar [] [] []
              (final (start_pass dl w))) as [[r w'] t].
  cbn [outcome final events fst snd] in H, Hdry.
  destruct H as (Hr & Hp & Hlen & Hq & Hf & _).
  rewrite indices_0 in Hq. subst r.
  cbn [outcome final events fst snd app].
  repeat split; try assumption; try apply Hf.
Qed.

Lemma valid_run (Heval : replies_eval learner)
    (args : Args) (dl : DataLoader Batch) (w : World) :
  let pbar := dl_pass dl (w_passes w (dl_split dl)) in
  let k := num_valid_batches args in
  let x := valid args dl w in
  outcome x = Ok (summary2 (replies (events x))) /\
  processed (events x) = firstn (batches_run k 0) pbar /\
  List.length (replies (events x)) = List.length (processed (events x)) /\
  requested (events x) =
    map Z.of_nat (seq 0 (Nat.min (S (List.length pbar)) (batches_run k 0))) /\
  same_frame w (final x) /\
  ((List.length pbar < batches_run k 0)%nat ->
   exists t0,
     events x = t0 ++ [EvNext (dl_split dl) (Z.of_nat (List.length pbar)) None]).
Proof.
  intros pbar k x. subst x. rewrite valid_unfold.
  change (dl_pass dl (w_passes w (dl_split dl))) with pbar. fold k.
  pose proof (valid_loop_run Heval pbar k (dl_split dl) 0 [] []
                (final (start_pass dl (set_grad w false)))) as H.
  pose proof (valid_loop_dry Heval pbar k (dl_split dl) 0 [] []
                (final (start_pass dl (set_grad w false)))) as Hdry.
  destruct (valid_loop k (dl_split dl) 0 pbar [] []
              (final (start_pass dl (set_grad w false)))) as [[r w'] t].
  cbn [outcome final events fst snd] in H, Hdry.
  destruct H as (Hr & Hp & Hlen & Hq & Hf & _).
  rewrite indices_0 in Hq. subst r.
  cbn [outcome final events fst snd app].
  unfold same_frame in *. cbn in Hf |- *.
  repeat split; try assumption; try apply Hf.
Qed.

Lemma run_phase_train (args : Args) (dl : DataLoader Batch) (w : World) :
  run_phase TrainPhase args dl w =
  let '(r, w', t) := train args dl w in
  (match r with
   | Ok (loss, acc, grad) => Ok [loss; acc; grad]
   | Raise e => Raise e
   end, w', t).
Proof.
  unfold run_phase, bind.
  destruct (train args dl w) as [[[[[lo ac] gr]|e] w'] t];
    cbn; rewrite ?app_nil_r; reflexivity.
Qed.

Lemma run_phase_eval (args : Args) (dl : DataLoader Batch) (w : World) :
  run_phase EvalPhase args dl w =
  let '(r, w', t) := valid args dl w in
  (match r with
   | Ok (loss, acc) => Ok [loss; acc]
   | Raise e => Raise e
   end, w', t).
Proof.
  unfold run_phase, bind.
  destruct (valid args dl w) as [[[[lo ac]|e] w'] t];
    cbn; rewrite ?app_nil_r; reflexivity.
Qed.

(** A phase with a learner that keeps to the shape of the contract: the
    phase returns the summary of the tuples it collected, it processes the
    first batches of the pass up to the budget, and it asks for nothing
    beyond. *)
Lemma phase_run (phase : Phase) (Hshape : replies_in (learner := learner) phase)
    (args : Args) (dl : DataLoader Batch) (w : World) :
  let pbar := dl_pass dl (w_passes w (dl_split dl)) in
  let k := max_batches phase args in
  let x := run_phase phase args dl w in
  outcome x = Ok (summary phase (replies (events x))) /\
  processed (events x) = firstn (batches_run k 0) pbar /\
  List.length (replies (events x)) = List.length (processed (events x)) /\
  requested (events x) =
    map Z.of_nat (seq 0 (Nat.min (S (List.length pbar)) (batches_run k 0))) /\
  same_frame w (final x) /\
  ((List.length pbar < batches_run k 0)%nat ->
   exists t0,
     events x = t0 ++ [EvNext (dl_split dl) (Z.of_nat (List.length pbar)) None]).
Proof.
  destruct phase; cbv zeta; cbn [replies_in max_batches] in *.
  - rewrite run_phase_train.
    pose proof (train_run Hshape args dl w) as H. cbv zeta in H.
    destruct (train args dl w) as [[r w'] t].
    cbn [outcome final events fst snd] in H |- *.
    destruct H as (Hr & H). subst r. split; [reflexivity|exact H].
  - rewrite run_phase_eval.
    pose proof (valid_run Hshape args dl w) as H. cbv zeta in H.
    destruct (valid args dl w) as [[r w'] t].
    cbn [outcome final events fst snd] in H |- *.
    destruct H as (Hr & H). subst r. split; [reflexivity|exact H].
Qed.

End LoopFacts.

(* ================================================================== *)
(** ** The stub learner keeps to the contract *)

Lemma stub_replies_in (phase : Phase) :
  replies_in (learner := Stub.stub_learner) phase.
Proof.
  destruct phase; intros l b g; cbn.
  - do 4 eexists; reflexivity.
  - do 3 eexists; reflexivity.
Qed.

(* ================================================================== *)
(** ** The batch budget of a phase *)

Section Budget.

Context {Batch L F : Type}.
Context {learner : MetaLearner Batch L}.
Context {collab : Collaborators Batch F}.

Local Abbreviation World := (@World L F).

Lemma batches_run_budget (k : Z) :
  (0 <= k)%Z -> batches_run k 0 = (Z.to_nat k + 1)%nat.
Proof. unfold batches_run. lia. Qed.

(** C1. A phase (train or eval) with batch budget [k >= 0] (the spec takes
    budgets to be non-negative), run on a pass of the loader that holds at
    least [k + 2] batches, returns after having processed exactly the
    [k + 1] first batches: the batches of indices [0..k] are requested and
    handed to [outer_loop], the batch of index [k] among them, one tuple of
    metrics is recorded for each, and the batch of index [k + 1] is never
    requested. *)
Theorem phase_processes_budget_plus_one
    (phase : Phase) (Hshape : replies_in (learner := learner) phase)
    (args : Args) (dl : DataLoader Batch) (w : World) (k : Z) :
  let pbar := dl_pass dl (w_passes w (dl_split dl)) in
  let x := run_phase phase args dl w in
  max_batches phase args = k ->
  (0 <= k)%Z ->
  (k + 2 <= Z.of_nat (List.length pbar))%Z ->
  is_ok (outcome x) = true /\
  processed (events x) = firstn (Z.to_nat k + 1) pbar /\
  List.length (processed (events x)) = (Z.to_nat k + 1)%nat /\
  List.length (replies (events x)) = (Z.to_nat k + 1)%nat /\
  nth_error (processed (events x)) (Z.to_nat k) = nth_error pbar (Z.to_nat k) /\
  requested (events x) = map Z.of_nat (seq 0 (Z.to_nat k + 1)) /\
  ~ In (k + 1)%Z (requested (events x)).
Proof.
  intros pbar x Hk Hpos Hlen. subst x.
  destruct (phase_run phase Hshape args dl w) as (Hr & Hp & Hn & Hq & _).
  rewrite Hk, (batches_run_budget Hpos) in Hp, Hq. fold pbar in Hp, Hq.
  rewrite Nat.min_r in Hq by lia.
  assert (Hcount : List.length (firstn (Z.to_nat k + 1) pbar)
                   = (Z.to_nat k + 1)%nat)
    by (rewrite length_firstn; lia).
  rewrite Hr, Hn, Hp, Hq, Hcount.
  repeat split.
  - rewrite nth_error_firstn.
    destruct (Nat.ltb_spec (Z.to_nat k) (Z.to_nat k + 1)); [reflexivity|lia].
  - rewrite in_map_iff. intros (i & Hi & Hin). apply in_seq in Hin. lia.
Qed.

End Budget.

(** The theorem at work: the stub learner, a train budget of 2 and a pass of
    10 batches. *)
Lemma phase_processes_budget_plus_one_witness :
  let x := run_phase TrainPhase (Stub.stub_args "MAML" 1 2 1)
             (Stub.stub_loader SplitTrain) Stub.stub_world in
  is_ok (outcome x) = true /\
  processed (events x) = firstn (Z.to_nat 2 + 1) (seq 0 10) /\
  List.length (processed (events x)) = (Z.to_nat 2 + 1)%nat /\
  List.length (replies (events x)) = (Z.to_nat 2 + 1)%nat /\
  nth_error (processed (events x)) (Z.to_nat 2) = nth_error (seq 0 10) (Z.to_nat 2) /\
  requested (events x) = map Z.of_nat (seq 0 (Z.to_nat 2 + 1)) /\
  ~ In (2 + 1)%Z (requested (events x)).
Proof.
  apply (phase_processes_budget_plus_one TrainPhase
           (stub_replies_in TrainPhase) (Stub.stub_args "MAML" 1 2 1)
           (Stub.stub_loader SplitTrain) Stub.stub_world (k := 2%Z)).
  - reflexivity.
  - lia.
  - vm_compute. discriminate.
Defined.


(* ================================================================== *)
(** ** Short and empty passes *)

Section ShortPasses.

Context {Batch L F : Type}.
Context {learner : MetaLearner Batch L}.

Local Abbreviation World := (@World L F).

(** C7. When the pass of the loader holds fewer batches than the budget,
    the phase ends when the loader runs dry: it returns normally, having
    processed every batch of the pass and no other, and its summary is the
    summary of the tuples collected on these batches. *)
Theorem short_stream_ends_phase_early
    (phase : Phase) (Hshape : replies_in (learner := learner) phase)
    (args : Args) (dl : DataLoader Batch) (w : World) :
  let pbar := dl_pass dl (w_passes w (dl_split dl)) in
  let x := run_phase phase args dl w in
  (Z.of_nat (List.length pbar) < max_batches phase args)%Z ->
  outcome x = Ok (summary phase (replies (events x))) /\
  processed (events x) = pbar /\
  List.length (replies (events x)) = List.length pbar /\
  requested (events x) = map Z.of_nat (seq 0 (S (List.length pbar))) /\
  exists t0,
    events x = t0 ++ [EvNext (dl_split dl) (Z.of_nat (List.length pbar)) None].
Proof.
  intros pbar x Hshort. subst x.
  destruct (phase_run phase Hshape args dl w)
    as (Hr & Hp & Hn & Hq & _ & Hdry).
  fold pbar in Hp, Hq, Hdry.
  assert (Hrun : (List.length pbar < batches_run (max_batches phase args) 0)%nat)
    by (unfold batches_run; lia).
  rewrite Nat.min_l in Hq by lia.
  rewrite firstn_all2 in Hp by lia.
  rewrite Hn, Hp. repeat split; auto.
Qed.

(** C3, as the code has it.  A phase whose loader yields no batch raises
    nothing: it asks the loader once, calls [outer_loop] not once, leaves
    the learner as it was, and returns a summary whose every field is
    [nan].  This holds of [train] and of [valid], whatever the learner. *)
Theorem empty_stream_summary_is_nan
    (args : Args) (dl : DataLoader Batch) (w : World) :
  dl_pass dl (w_passes w (dl_split dl)) = [] ->
  (outcome (train args dl w) = Ok (NaN, NaN, NaN) /\
   events (train args dl w) = [EvNext (dl_split dl) 0 None] /\
   w_model (final (train args dl w)) = w_model w) /\
  (outcome (valid args dl w) = Ok (NaN, NaN) /\
   events (valid args dl w) = [EvNext (dl_split dl) 0 None] /\
   w_model (final (valid args dl w)) = w_model w).
Proof.
  intros Hempty. split.
  - rewrite train_unfold, Hempty. cbn. auto.
  - rewrite valid_unfold, Hempty. cbn. auto.
Qed.

End ShortPasses.

Lemma short_stream_ends_phase_early_witness :
  let x := run_phase EvalPhase (stub_args "MAML" 1 2 5)
             (fixed_loader SplitVal [7; 8]%nat) stub_world in
  outcome x = Ok (summary EvalPhase (replies (events x))) /\
  processed (events x) = [7; 8]%nat /\
  List.length (replies (events x)) = List.length [7; 8]%nat /\
  requested (events x) = map Z.of_nat (seq 0 (S (List.length [7; 8]%nat))) /\
  exists t0,
    events x = t0 ++ [EvNext SplitVal (Z.of_nat (List.length [7; 8]%nat)) None].
Proof.
  apply (short_stream_ends_phase_early EvalPhase (stub_replies_in EvalPhase)
           (stub_args "MAML" 1 2 5) (fixed_loader SplitVal [7; 8]%nat)
           stub_world).
  vm_compute. reflexivity.
Defined.

Lemma empty_stream_summary_is_nan_witness :
  let args := stub_args "MAML" 1 2 1 in
  let dl := fixed_loader SplitVal [] in
  (outcome (train args dl stub_world) = Ok (NaN, NaN, NaN) /\
   events (train args dl stub_world) = [EvNext SplitVal 0 None] /\
   w_model (final (train args dl stub_world)) = w_model stub_world) /\
  (outcome (valid args dl stub_world) = Ok (NaN, NaN) /\
   events (valid args dl stub_world) = [EvNext SplitVal 0 None] /\
   w_model (final (valid args dl stub_world)) = w_model stub_world).
Proof.
  apply (empty_stream_summary_is_nan (stub_args "MAML" 1 2 1)
           (fixed_loader SplitVal []) stub_world).
  reflexivity.
Defined.

(** C3, as the spec states it, fails.  On a loader that yields no batch,
    [train] run with the stub learner raises no error at all (so no
    [EmptyPhaseError]): it returns [(nan, nan, nan)]. *)
Lemma empty_stream_raises_nothing :
  let x := train (stub_args "MAML" 1 2 1) (fixed_loader SplitTrain [])
             stub_world in
  outcome x = Ok (NaN, NaN, NaN) /\ forall e, outcome x <> Raise e.
Proof.
  split; [reflexivity|]. intros e. vm_compute. discriminate.
Qed.

(* ================================================================== *)
(** ** The summary of a phase *)

Lemma field_nonempty (i : nat) (tuples : list (list Q)) :
  tuples <> [] -> field i tuples <> [].
Proof. destruct tuples; [congruence|discriminate]. Qed.

Lemma aggregate_rounds_mean (values : list Q) :
  values <> [] ->
  exists r, aggregate values = Num r /\
            rounded_to_4_decimals (arithmetic_mean values) r.
Proof. apply round_mean_spec. Qed.




Section Summary.

Context {Batch L F : Type}.
Context {learner : MetaLearner Batch L}.

Local Abbreviation World := (@World L F).


End Summary.


(* ================================================================== *)
(** ** Evaluation leaves the learner alone *)

Lemma stub_eval_read_only : eval_read_only stub_learner.
Proof. intros l b. reflexivity. Qed.

Section EvalFrame.

Context {Batch L F : Type}.
Context {learner : MetaLearner Batch L}.

Local Abbreviation World := (@World L F).

(** The loop of [valid], started while gradient tracking is off, calls
    [outer_loop] only for evaluation and without gradient tracking; a
    learner that is read-only under such calls is the same afterwards. *)
Lemma valid_loop_frame (Hro : eval_read_only learner) :
  forall (pbar : list Batch) k s idx ll al (w : World),
    w_grad w = false ->
    let x := valid_loop k s idx pbar ll al w in
    w_model (final x) = w_model w /\
    w_grad (final x) = false /\
    Forall (fun m => m = (false, false)) (modes (events x)).
Proof.
  induction pbar as [|b pbar IH]; intros k s idx ll al w Hg x; subst x.
  - cbn. auto.
  - pose proof (Hro (w_model w) b) as Hl.
    cbn [valid_loop]. unfold bind, emit, call_outer_loop. rewrite Hg.
    destruct (model_outer_loop (w_model w) b false false)
      as [l' [reply|e]]; cbn [fst] in Hl; subst l'; cbn; auto.
    destruct reply as [|lo [|ac [|c rest]]]; cbn; auto.
    destruct (idx >=? k)%Z; [cbn; auto|].
    specialize (IH k s (idx + 1)%Z (ll ++ [lo]) (al ++ [ac])
                   (set_model w (w_model w)) Hg).
    destruct (valid_loop k s (idx + 1) pbar _ _ _) as [[r w2] t2].
    cbn in IH |- *. destruct IH as (Hm & Hg2 & Hmodes). auto.
Qed.

(** The loop of [valid] reads the world only through the learner and the
    gradient mode. *)
Lemma valid_loop_ext :
  forall (pbar : list Batch) k s1 s2 idx ll al (w1 w2 : World),
    w_model w1 = w_model w2 ->
    w_grad w1 = w_grad w2 ->
    let x1 := valid_loop k s1 idx pbar ll al w1 in
    let x2 := valid_loop k s2 idx pbar ll al w2 in
    outcome x1 = outcome x2 /\
    replies (events x1) = replies (events x2) /\
    processed (events x1) = processed (events x2).
Proof.
  induction pbar as [|b pbar IH]; intros k s1 s2 idx ll al w1 w2 Hm Hg x1 x2;
    subst x1 x2.
  - cbn. auto.
  - cbn [valid_loop]. unfold bind, emit, call_outer_loop.
    rewrite <- Hm, <- Hg.
    destruct (model_outer_loop (w_model w1) b false (w_grad w1))
      as [l' [reply|e]]; cbn; auto.
    destruct reply as [|lo [|ac [|c rest]]]; cbn; auto.
    destruct (idx >=? k)%Z; [cbn; auto|].
    specialize (IH k s1 s2 (idx + 1)%Z (ll ++ [lo]) (al ++ [ac])
                   (set_model w1 l') (set_model w2 l') eq_refl Hg).
    cbv zeta in IH.
    destruct (valid_loop k s1 (idx + 1) pbar _ _ (set_model w1 l'))
      as [[r1 v1] t1].
    destruct (valid_loop k s2 (idx + 1) pbar _ _ (set_model w2 l'))
      as [[r2 v2] t2].
    cbn in IH |- *. destruct IH as (Hr & Hrep & Hproc).
    rewrite Hr, Hrep, Hproc. auto.
Qed.

Lemma valid_ext (args : Args) (dl1 dl2 : DataLoader Batch) (w1 w2 : World) :
  w_model w1 = w_model w2 ->
  dl_pass dl1 (w_passes w1 (dl_split dl1)) =
  dl_pass dl2 (w_passes w2 (dl_split dl2)) ->
  outcome (valid args dl1 w1) = outcome (valid args dl2 w2) /\
  replies (events (valid args dl1 w1)) = replies (events (valid args dl2 w2)).
Proof.
  intros Hm Hpass. rewrite !valid_unfold, Hpass.
  pose proof (valid_loop_ext (dl_pass dl2 (w_passes w2 (dl_split dl2)))
                (num_valid_batches args) (dl_split dl1) (dl_split dl2) 0 [] []
                (final (start_pass dl1 (set_grad w1 false)))
                (final (start_pass dl2 (set_grad w2 false))) Hm eq_refl) as H.
  cbv zeta in H.
  destruct (valid_loop _ _ _ _ _ _ (final (start_pass dl1 _)))
    as [[r1 v1] t1].
  destruct (valid_loop _ _ _ _ _ _ (final (start_pass dl2 _)))
    as [[r2 v2] t2].
  cbn [outcome events fst snd] in H. destruct H as (Hr & Hrep & _).
  subst r2. destruct r1 as [[ll al]|e]; cbn; auto.
Qed.

Lemma valid_frame (Hro : eval_read_only learner)
    (args : Args) (dl : DataLoader Batch) (w : World) :
  w_model (final (valid args dl w)) = w_model w /\
  w_grad (final (valid args dl w)) = w_grad w /\
  Forall (fun m => m = (false, false)) (modes (events (valid args dl w))).
Proof.
  rewrite valid_unfold.
  pose proof (valid_loop_frame Hro (dl_pass dl (w_passes w (dl_split dl)))
                (num_valid_batches args) (dl_split dl) 0 [] []
                (final (start_pass dl (set_grad w false))) eq_refl) as H.
  cbv zeta in H.
  destruct (valid_loop _ _ _ _ _ _ _) as [[[[ll al]|e] v'] t];
    cbn in H |- *; intuition auto.
Qed.

(** C4. With a learner whose evaluation steps are read-only, an eval
    phase leaves the learner exactly as it found it: every call of
    [outer_loop] in the phase is made with [is_train=False] while gradient
    tracking is off, the gradient mode is restored on exit, and a second
    eval phase over the same batches returns the same summary from the same
    per-batch tuples. *)
Theorem eval_phase_leaves_learner_unchanged
    (Hro : eval_read_only learner)
    (args : Args) (dl : DataLoader Batch) (w : World) :
  let x := valid args dl w in
  w_model (final x) = w_model w /\
  w_grad (final x) = w_grad w /\
  Forall (fun m => m = (false, false)) (modes (events x)) /\
  forall dl' : DataLoader Batch,
    dl_pass dl' (w_passes (final x) (dl_split dl')) =
    dl_pass dl (w_passes w (dl_split dl)) ->
    let y := valid args dl' (final x) in
    outcome y = outcome x /\
    replies (events y) = replies (events x) /\
    w_model (final y) = w_model w.
Proof.
  intros x. subst x.
  destruct (valid_frame Hro args dl w) as (Hm & Hg & Hmodes).
  split; [exact Hm|]. split; [exact Hg|]. split; [exact Hmodes|].
  intros dl' Hsame y. subst y.
  destruct (valid_ext args dl' dl (final (valid args dl w)) w Hm Hsame)
    as (Hout & Hrep).
  destruct (valid_frame Hro args dl' (final (valid args dl w))) as (Hm' & _).
  split; [exact Hout|]. split; [exact Hrep|]. rewrite Hm'. exact Hm.
Qed.

End EvalFrame.

Lemma eval_phase_leaves_learner_unchanged_witness :
  let x := valid (stub_args "MAML" 1 2 1) (stub_loader SplitVal) stub_world in
  w_model (final x) = w_model stub_world /\
  w_grad (final x) = w_grad stub_world /\
  Forall (fun m => m = (false, false)) (modes (events x)) /\
  forall dl' : DataLoader nat,
    dl_pass dl' (w_passes (final x) (dl_split dl')) =
    dl_pass (stub_loader SplitVal)
      (w_passes stub_world (dl_split (stub_loader SplitVal))) ->
    let y := valid (stub_args "MAML" 1 2 1) dl' (final x) in
    outcome y = outcome x /\
    replies (events y) = replies (events x) /\
    w_model (final y) = w_model stub_world.
Proof.
  exact (eval_phase_leaves_learner_unchanged stub_eval_read_only
           (stub_args "MAML" 1 2 1) (stub_loader SplitVal) stub_world).
Defined.

(* ================================================================== *)
(** ** Which events a computation can emit *)

Section Emission.

Context {Batch L F : Type}.
Context {learner : MetaLearner Batch L}.
Context {collab : Collaborators Batch F}.

Local Abbreviation M := (@M Batch L F).
Local Abbreviation World := (@World L F).
Local Abbreviation event := (@event Batch).

Variable P : event -> bool.

Lemma emits_ret {A : Type} (a : A) : emits_only P (ret a : M A).
Proof. intro w. constructor. Qed.

Lemma emits_raise {A : Type} (e : exn) : emits_only P (raise e : M A).
Proof. intro w. constructor. Qed.

Lemma emits_emit (e : event) : P e = true -> emits_only P (emit e : M unit).
Proof. intros H w. cbn. auto. Qed.

Lemma emits_bind {A B : Type} (m : M A) (k : A -> M B) :
  emits_only P m -> (forall a, emits_only P (k a)) -> emits_only P (bind m k).
Proof.
  intros Hm Hk w. unfold bind. specialize (Hm w).
  destruct (m w) as [[[a|e] w1] t1]; cbn in Hm |- *; [|exact Hm].
  specialize (Hk a w1). destruct (k a w1) as [[r w2] t2]. cbn in Hk |- *.
  apply Forall_app. auto.
Qed.

Lemma emits_no_grad {A : Type} (m : M A) :
  emits_only P m -> emits_only P (no_grad m).
Proof.
  intros Hm w. unfold no_grad. specialize (Hm (set_grad w false)).
  destruct (m (set_grad w false)) as [[r w'] t]. exact Hm.
Qed.

Lemma emits_start_pass (dl : DataLoader Batch) :
  emits_only P (start_pass dl : M _).
Proof. intro w. constructor. Qed.

Lemma emits_unpack3 (reply : list Q) : emits_only P (unpack3 reply : M _).
Proof.
  destruct reply as [|a [|b [|c [|d rest]]]]; cbn;
    first [apply emits_ret | apply emits_raise].
Qed.

Lemma emits_unpack2 (reply : list Q) : emits_only P (unpack2 reply : M _).
Proof.
  destruct reply as [|a [|b [|c rest]]]; cbn;
    first [apply emits_ret | apply emits_raise].
Qed.

Lemma emits_call_outer_loop (b : Batch) (is_train : bool) :
  (forall g r, P (EvOuterLoop b is_train g r) = true) ->
  emits_only P (call_outer_loop b is_train : M _).
Proof.
  intros H w. unfold call_outer_loop.
  destruct (model_outer_loop _ _ _ _) as [l' r]. cbn. auto.
Qed.

End Emission.

Ltac emits :=
  repeat first
    [ apply emits_ret | apply emits_raise | apply emits_start_pass
    | apply emits_unpack3 | apply emits_unpack2
    | apply emits_no_grad
    | apply emits_emit; reflexivity
    | apply emits_call_outer_loop; reflexivity
    | apply emits_bind; [|intro]
    | assumption
    | match goal with
      | |- emits_only _ (match ?x with _ => _ end) => destruct x
      | |- emits_only _ (if ?c then _ else _) => destruct c
      end ].

Section PhaseEvents.

Context {Batch L F : Type}.
Context {learner : MetaLearner Batch L}.
Context {collab : Collaborators Batch F}.

Local Abbreviation M := (@M Batch L F).
Local Abbreviation World := (@World L F).
Local Abbreviation event := (@event Batch).

Lemma train_loop_emits_phase k s (pbar : list Batch) :
  forall idx ll al gl,
    emits_only (L := L) (F := F) is_phase (train_loop k s idx pbar ll al gl).
Proof.
  induction pbar as [|b pbar IH]; intros idx ll al gl; cbn [train_loop].
  - emits.
  - emits. apply IH.
Qed.

Lemma valid_loop_emits_phase k s (pbar : list Batch) :
  forall idx ll al,
    emits_only (L := L) (F := F) is_phase (valid_loop k s idx pbar ll al).
Proof.
  induction pbar as [|b pbar IH]; intros idx ll al; cbn [valid_loop].
  - emits.
  - emits. apply IH.
Qed.

Lemma train_emits_phase (args : Args) (dl : DataLoader Batch) :
  emits_only (L := L) (F := F) is_phase (train args dl).
Proof. unfold train. emits. apply train_loop_emits_phase. Qed.

Lemma valid_emits_phase (args : Args) (dl : DataLoader Batch) :
  emits_only (L := L) (F := F) is_phase (valid args dl).
Proof. unfold valid. emits. apply valid_loop_emits_phase. Qed.

Lemma run_epoch_emits_phase epoch (args : Args) (tl vl tel : DataLoader Batch) :
  emits_only (L := L) (F := F) is_phase (run_epoch epoch args tl vl tel).
Proof.
  unfold run_epoch. emits;
    first [apply train_loop_emits_phase | apply valid_loop_emits_phase].
Qed.

Lemma BestTracker_emits (P : event -> bool) (func : M OrderedDict.t) :
  emits_only P func -> emits_only P (BestTracker func).
Proof.
  intro Hf. unfold BestTracker, float_field, int_field.
  emits; intro w; constructor.
Qed.

End PhaseEvents.

(* ================================================================== *)
(** ** The epoch routine *)

Section Epoch.

Context {Batch L F : Type}.
Context {learner : MetaLearner Batch L}.
Context {collab : Collaborators Batch F}.

Local Abbreviation M := (@M Batch L F).
Local Abbreviation World := (@World L F).
Local Abbreviation event := (@event Batch).

(** [run_epoch] when its three phases return. *)
Lemma run_epoch_steps epoch (args : Args) (tl vl tel : DataLoader Batch)
    (w w1 w2 w3 : World) s1 s2 s3 (t1 t2 t3 : list event) :
  train args tl w = (Ok s1, w1, t1) ->
  valid args vl w1 = (Ok s2, w2, t2) ->
  valid args tel w2 = (Ok s3, w3, t3) ->
  run_epoch epoch args tl vl tel w =
  (Ok [("epoch"%string, PyInt epoch);
       ("train_loss"%string, PyFloat (fst (fst s1)));
       ("train_acc"%string, PyFloat (snd (fst s1)));
       ("train_grad"%string, PyFloat (snd s1));
       ("valid_loss"%string, PyFloat (fst s2));
       ("valid_acc"%string, PyFloat (snd s2));
       ("test_loss"%string, PyFloat (fst s3));
       ("test_acc"%string, PyFloat (snd s3))],
   w3, EvPrint epoch :: t1 ++ t2 ++ t3).
Proof.
  intros H1 H2 H3. unfold run_epoch, bind, emit.
  rewrite H1. destruct s1 as [[a b] c]. rewrite H2. destruct s2 as [d e].
  rewrite H3. destruct s3 as [f g]. cbn. rewrite app_nil_r. reflexivity.
Qed.

(** A phase with a learner that keeps to the shape of the contract returns. *)
Lemma train_returns (Htrain : replies_train learner) (args : Args)
    (dl : DataLoader Batch) (w : World) :
  exists s w' t, train args dl w = (Ok s, w', t).
Proof.
  destruct (train_run Htrain args dl w) as (Hr & _).
  destruct (train args dl w) as [[r w'] t]. cbn in Hr. subst r. eauto.
Qed.

Lemma valid_returns (Heval : replies_eval learner) (args : Args)
    (dl : DataLoader Batch) (w : World) :
  exists s w' t, valid args dl w = (Ok s, w', t).
Proof.
  destruct (valid_run Heval args dl w) as (Hr & _).
  destruct (valid args dl w) as [[r w'] t]. cbn in Hr. subst r. eauto.
Qed.

(** C6. [run_epoch] runs the train phase in the world it is given, then
    the eval phase on the validation loader in the world the train phase
    left, then the eval phase on the test loader in the world the
    validation phase left; its events are the events of the three phases
    in that order; both eval phases are cut by [num_valid_batches]; and
    the result maps, in this order, the keys [epoch], [train_loss],
    [train_acc], [train_grad], [valid_loss], [valid_acc], [test_loss],
    [test_acc] to the epoch index and the fields of the three summaries. *)
Theorem run_epoch_runs_train_valid_test_in_order
    (Htrain : replies_train learner) (Heval : replies_eval learner)
    (epoch : Z) (args : Args) (tl vl tel : DataLoader Batch) (w : World) :
  exists train_loss train_acc train_grad w1 t1
         valid_loss valid_acc w2 t2 test_loss test_acc w3 t3 res,
    train args tl w = (Ok (train_loss, train_acc, train_grad), w1, t1) /\
    valid args vl w1 = (Ok (valid_loss, valid_acc), w2, t2) /\
    valid args tel w2 = (Ok (test_loss, test_acc), w3, t3) /\
    run_epoch epoch args tl vl tel w = (Ok res, w3, EvPrint epoch :: t1 ++ t2 ++ t3) /\
    res = [("epoch"%string, PyInt epoch);
           ("train_loss"%string, PyFloat train_loss);
           ("train_acc"%string, PyFloat train_acc);
           ("train_grad"%string, PyFloat train_grad);
           ("valid_loss"%string, PyFloat valid_loss);
           ("valid_acc"%string, PyFloat valid_acc);
           ("test_loss"%string, PyFloat test_loss);
           ("test_acc"%string, PyFloat test_acc)] /\
    OrderedDict.keys res =
      ["epoch"; "train_loss"; "train_acc"; "train_grad";
       "valid_loss"; "valid_acc"; "test_loss"; "test_acc"]%string /\
    processed t1 = firstn (batches_run (num_train_batches args) 0)
                     (dl_pass tl (w_passes w (dl_split tl))) /\
    processed t2 = firstn (batches_run (num_valid_batches args) 0)
                     (dl_pass vl (w_passes w1 (dl_split vl))) /\
    processed t3 = firstn (batches_run (num_valid_batches args) 0)
                     (dl_pass tel (w_passes w2 (dl_split tel))).
Proof.
  destruct (train_returns Htrain args tl w) as ([[a b] c] & w1 & t1 & H1).
  destruct (valid_returns Heval args vl w1) as ([d e] & w2 & t2 & H2).
  destruct (valid_returns Heval args tel w2) as ([f g] & w3 & t3 & H3).
  exists a, b, c, w1, t1, d, e, w2, t2, f, g, w3, t3.
  eexists. split; [exact H1|]. split; [exact H2|]. split; [exact H3|].
  split; [apply (run_epoch_steps epoch args tl vl tel w H1 H2 H3)|].
  cbn [fst snd].
  split; [reflexivity|]. split; [reflexivity|].
  pose proof (train_run Htrain args tl w) as (_ & P1 & _).
  pose proof (valid_run Heval args vl w1) as (_ & P2 & _).
  pose proof (valid_run Heval args tel w2) as (_ & P3 & _).
  rewrite H1 in P1. rewrite H2 in P2. rewrite H3 in P3. auto.
Qed.

End Epoch.

Lemma stub_replies_train : replies_train stub_learner.
Proof. exact (stub_replies_in TrainPhase). Qed.

Lemma stub_replies_eval : replies_eval stub_learner.
Proof. exact (stub_replies_in EvalPhase). Qed.

Lemma run_epoch_runs_train_valid_test_in_order_witness :
  let args := stub_args "MAML" 1 2 1 in
  let tl := stub_loader SplitTrain in
  let vl := stub_loader SplitVal in
  let tel := stub_loader SplitTest in
  let w := stub_world in
  exists train_loss train_acc train_grad w1 t1
         valid_loss valid_acc w2 t2 test_loss test_acc w3 t3 res,
    train args tl w = (Ok (train_loss, train_acc, train_grad), w1, t1) /\
    valid args vl w1 = (Ok (valid_loss, valid_acc), w2, t2) /\
    valid args tel w2 = (Ok (test_loss, test_acc), w3, t3) /\
    run_epoch 0 args tl vl tel w = (Ok res, w3, EvPrint 0 :: t1 ++ t2 ++ t3) /\
    res = [("epoch"%string, PyInt 0);
           ("train_loss"%string, PyFloat train_loss);
           ("train_acc"%string, PyFloat train_acc);
           ("train_grad"%string, PyFloat train_grad);
           ("valid_loss"%string, PyFloat valid_loss);
           ("valid_acc"%string, PyFloat valid_acc);
           ("test_loss"%string, PyFloat test_loss);
           ("test_acc"%string, PyFloat test_acc)] /\
    OrderedDict.keys res =
      ["epoch"; "train_loss"; "train_acc"; "train_grad";
       "valid_loss"; "valid_acc"; "test_loss"; "test_acc"]%string /\
    processed t1 = firstn (batches_run (num_train_batches args) 0)
                     (dl_pass tl (w_passes w (dl_split tl))) /\
    processed t2 = firstn (batches_run (num_valid_batches args) 0)
                     (dl_pass vl (w_passes w1 (dl_split vl))) /\
    processed t3 = firstn (batches_run (num_valid_batches args) 0)
                     (dl_pass tel (w_passes w2 (dl_split tel))).
Proof.
  exact (run_epoch_runs_train_valid_test_in_order stub_replies_train
           stub_replies_eval 0 (stub_args "MAML" 1 2 1)
           (stub_loader SplitTrain) (stub_loader SplitVal)
           (stub_loader SplitTest) stub_world).
Defined.

(* ================================================================== *)
(** ** The best tracker *)

Lemma np_gt_Num (x y : Q) : np_gt (Num x) (Num y) = true <-> (y < x)%Q.
Proof.
  cbn. rewrite negb_true_iff, <- not_true_iff_false, Qle_bool_iff.
  split; [apply Qnot_le_lt|apply Qlt_not_le].
Qed.

(** Comparing against the best value after an epoch of accuracy [v] is
    comparing against the best value before it and against [v]. *)
Lemma np_gt_running_best (x v : Q) (best : npfloat) :
  np_gt (Num x) (if np_gt (Num v) best then Num v else best) = true <->
  np_gt (Num x) best = true /\ (v < x)%Q.
Proof.
  destruct best as [| |m].
  - cbn. intuition discriminate.
  - change (np_gt (Num v) NegInf) with true. cbv iota.
    rewrite np_gt_Num. cbn. intuition.
  - destruct (np_gt (Num v) (Num m)) eqn:E.
    + apply np_gt_Num in E. rewrite !np_gt_Num. split; [|tauto].
      intro H. split; [|exact H]. now apply Qlt_trans with v.
    + rewrite np_gt_Num. split; [|tauto]. intro H. split; [exact H|].
      apply Qle_lt_trans with m; [|exact H].
      apply Qnot_lt_le. intro Hlt. apply np_gt_Num in Hlt. congruence.
Qed.

Lemma valid_acc_of_Num (res : OrderedDict.t) (v : Q) :
  OrderedDict.get res "valid_acc" = Some (PyFloat (Num v)) ->
  valid_acc_of res = v.
Proof. intro H. unfold valid_acc_of. rewrite H. reflexivity. Qed.

Section Tracker.

Context {Batch L F : Type}.
Context {learner : MetaLearner Batch L}.

Local Abbreviation M := (@M Batch L F).
Local Abbreviation World := (@World L F).

(** One decorated call: the comparison is made against the state of the
    tracker as the decorated function leaves it. *)
Lemma BestTracker_step (func : M OrderedDict.t) (w w1 : World) res t v e :
  func w = (Ok res, w1, t) ->
  OrderedDict.get res "valid_acc" = Some (PyFloat v) ->
  OrderedDict.get res "epoch" = Some (PyInt e) ->
  BestTracker func w =
  if np_gt v (best_value (w_best w1))
  then (Ok (res, true), set_best w1 (mkBest v e), t)
  else (Ok (res, false), w1, t).
Proof.
  intros Hf Hv He.
  unfold BestTracker, bind, float_field, int_field, get_best, put_best, ret.
  rewrite Hf, Hv, He. cbn.
  destruct (np_gt v (best_value (w_best w1))); cbn;
    rewrite ?app_nil_r; reflexivity.
Qed.

(** A run of decorated calls from any state of the tracker, for epochs
    numbered from [off]. *)
Lemma tracked_run_spec :
  forall (funcs : list (M OrderedDict.t)) (off : Z) (w : World),
    yields_epochs off funcs ->
    exists reports,
      outcome (tracked_run funcs w) = Ok reports /\
      List.length reports = List.length funcs /\
      forall i, (i < List.length funcs)%nat ->
        let d := ([], false, BestState_init) in
        let acc := fun j => valid_acc_of (fst (fst (nth j reports d))) in
        let is_best := snd (fst (nth i reports d)) in
        let before :=
          match i with O => w_best w | S i' => snd (nth i' reports d) end in
        OrderedDict.get (fst (fst (nth i reports d))) "epoch"
          = Some (PyInt (off + Z.of_nat i)) /\
        is_best = np_gt (Num (acc i)) (best_value before) /\
        (is_best = true <->
           np_gt (Num (acc i)) (best_value (w_best w)) = true /\
           forall j, (j < i)%nat -> (acc j < acc i)%Q) /\
        snd (nth i reports d) =
          if is_best then mkBest (Num (acc i)) (off + Z.of_nat i) else before.
Proof.
  induction funcs as [|func funcs IH]; intros off w Hfuncs.
  - exists []. cbn. repeat split; intros; lia.
  - destruct Hfuncs as (Hfunc & Hfuncs).
    destruct (Hfunc w) as (res & wf & tf & v & Ef & Hbf & Hv & He).
    cbn [tracked_run]. unfold bind at 1.
    rewrite BestTracker_step
      with (w1 := wf) (res := res) (t := tf) (v := Num v) (e := off);
      [|exact Ef|exact Hv|exact He].
    rewrite Hbf.
    remember (np_gt (Num v) (best_value (w_best w))) as flag eqn:Eflag.
    remember (if flag then set_best wf (mkBest (Num v) off) else wf)
      as w1 eqn:Ew1.
    assert (Hbest : best_value (w_best w1)
                    = if flag then Num v else best_value (w_best w))
      by (subst w1; destruct flag; [reflexivity|cbn; now rewrite Hbf]).
    assert (Hstate : w_best w1
                     = if flag then mkBest (Num v) off else w_best w)
      by (subst w1; destruct flag; [reflexivity|exact Hbf]).
    assert (Hcall :
              (if flag
               then (Ok (res, true), set_best wf (mkBest (Num v) off), tf)
               else (Ok (res, false), wf, tf))
              = (Ok (res, flag), w1, tf))
      by (subst w1; destruct flag; reflexivity).
    rewrite Hcall. clear Hcall.
    destruct (IH (off + 1)%Z w1 Hfuncs) as (reports & Hrun & Hn & Hrep).
    exists ((res, flag, w_best w1) :: reports).
    split; [|split].
    + cbn. unfold bind, get_best.
      destruct (tracked_run funcs w1) as [[r w2] t2]. cbn in Hrun. subst r.
      reflexivity.
    + cbn. rewrite Hn. reflexivity.
    + intros [|i] Hi; cbv zeta.
      * cbn [nth fst snd]. rewrite (valid_acc_of_Num _ Hv), Z.add_0_r.
        split; [exact He|]. split; [exact Eflag|]. split.
        -- rewrite <- Eflag.
           split; [intros Hflag; split; [exact Hflag|intros; lia]|tauto].
        -- rewrite Hstate. destruct flag; reflexivity.
      * cbn [List.length] in Hi.
        destruct (Hrep i) as (Hep & Hcmp & Hiff & Hst); [lia|].
        cbv zeta in Hep, Hcmp, Hiff, Hst.
        cbn [nth].
        replace (off + Z.of_nat (S i))%Z with (off + 1 + Z.of_nat i)%Z by lia.
        split; [exact Hep|].
        split; [rewrite Hcmp; destruct i; reflexivity|]. split.
        -- rewrite Hiff, Hbest. subst flag. rewrite np_gt_running_best.
           split.
           ++ intros ((Hgt & Hv0) & Hprev). split; [exact Hgt|].
              intros [|j] Hj.
              ** cbn [nth fst]. rewrite (valid_acc_of_Num _ Hv). exact Hv0.
              ** cbn [nth]. apply Hprev. lia.
           ++ intros (Hgt & Hall). split; [split|].
              ** exact Hgt.
              ** specialize (Hall 0%nat (Nat.lt_0_succ i)).
                 cbn [nth fst] in Hall.
                 rewrite (valid_acc_of_Num _ Hv) in Hall. exact Hall.
              ** intros j Hj. specialize (Hall (S j)). cbn [nth] in Hall.
                 apply Hall. lia.
        -- rewrite Hst. destruct i; reflexivity.
Qed.

(** C5. One decorated call, whatever the decorated function [func] and
    the world: when [func] returns the result [res] of epoch [e] with
    validation accuracy [v], the call reports [is_best] as the strict
    comparison of [v] with the best value the tracker holds, and the
    tracker then holds [(v, e)] when [is_best] is reported and is left as
    it was otherwise.  Over a run of decorated calls for the epochs
    [0, 1, ...], started with the tracker in its initial state, by
    functions that return numbers as validation accuracies and do not
    touch the tracker: epoch [e] is reported as best exactly when its
    accuracy is strictly greater than the accuracy of every earlier epoch;
    of two consecutive epochs with the same accuracy the second one is not
    reported as best. *)
Theorem best_tracker_reports_strict_improvements
    (funcs : list (M OrderedDict.t)) (w : World) :
  w_best w = BestState_init ->
  yields_epochs 0 funcs ->
  (forall (func : M OrderedDict.t) (v0 v1 : World) res t v e,
     func v0 = (Ok res, v1, t) ->
     OrderedDict.get res "valid_acc" = Some (PyFloat v) ->
     OrderedDict.get res "epoch" = Some (PyInt e) ->
     let is_best := np_gt v (best_value (w_best v1)) in
     BestTracker func v0 =
       (Ok (res, is_best),
        (if is_best then set_best v1 (mkBest v e) else v1), t)) /\
  exists reports,
    outcome (tracked_run funcs w) = Ok reports /\
    List.length reports = List.length funcs /\
    forall e, (e < List.length funcs)%nat ->
      let d := ([], false, BestState_init) in
      let acc := fun j => valid_acc_of (fst (fst (nth j reports d))) in
      let is_best := snd (fst (nth e reports d)) in
      let before :=
        match e with O => BestState_init | S e' => snd (nth e' reports d) end in
      OrderedDict.get (fst (fst (nth e reports d))) "epoch"
        = Some (PyInt (Z.of_nat e)) /\
      is_best = np_gt (Num (acc e)) (best_value before) /\
      (is_best = true <-> forall j, (j < e)%nat -> (acc j < acc e)%Q) /\
      snd (nth e reports d) =
        (if is_best then mkBest (Num (acc e)) (Z.of_nat e) else before) /\
      ((S e < List.length funcs)%nat ->
       (acc (S e) == acc e)%Q ->
       snd (fst (nth (S e) reports d)) = false).
Proof.
  intros Hinit Hfuncs. split.
  { intros func v0 v1 res t v e Hf Hv He is_best. subst is_best.
    rewrite (BestTracker_step func v0 Hf Hv He).
    destruct (np_gt v (best_value (w_best v1))); reflexivity. }
  destruct (tracked_run_spec funcs 0 w Hfuncs) as (reports & Hrun & Hn & Hrep).
  exists reports. split; [exact Hrun|]. split; [exact Hn|].
  intros e He. cbv zeta.
  destruct (Hrep e He) as (Hep & Hcmp & Hiff & Hst).
  cbv zeta in Hep, Hcmp, Hiff, Hst.
  rewrite Hinit in Hcmp, Hiff, Hst. rewrite Z.add_0_l in Hep, Hst.
  split; [exact Hep|]. split; [exact Hcmp|]. split; [|split; [exact Hst|]].
  - rewrite Hiff. cbn. tauto.
  - intros HS Heq.
    destruct (Hrep (S e) HS) as (_ & _ & Hiff' & _). cbv zeta in Hiff'.
    destruct (snd (fst (nth (S e) reports ([], false, BestState_init))));
      [|reflexivity].
    destruct Hiff' as (Hall & _). destruct (Hall eq_refl) as (_ & Hlt).
    specialize (Hlt e (Nat.lt_succ_diag_r e)). rewrite Heq in Hlt.
    exfalso. exact (Qlt_irrefl _ Hlt).
Qed.

End Tracker.

Section TrackedEpochs.

Context {Batch L F : Type}.
Context {learner : MetaLearner Batch L}.

Local Abbreviation World := (@World L F).

(** [run_epoch] is an epoch routine in the sense of [yields_epoch] when the
    learner keeps to the shape of the contract and the validation loader
    never yields an empty pass. *)
Lemma run_epoch_yields_epoch
    (Htrain : replies_train learner) (Heval : replies_eval learner)
    (epoch : Z) (args : Args) (tl vl tel : DataLoader Batch) :
  (forall n, dl_pass vl n <> []) ->
  yields_epoch (run_epoch (F := F) epoch args tl vl tel) epoch.
Proof.
  intros Hne w.
  destruct (train_returns Htrain args tl w) as (s1 & w1 & t1 & H1).
  destruct (valid_returns Heval args vl w1) as (s2 & w2 & t2 & H2).
  destruct (valid_returns Heval args tel w2) as (s3 & w3 & t3 & H3).
  pose proof (train_run Htrain args tl w) as (_ & _ & _ & _ & F1 & _).
  pose proof (valid_run Heval args vl w1) as (R2 & P2 & N2 & _ & F2 & _).
  pose proof (valid_run Heval args tel w2) as (_ & _ & _ & _ & F3 & _).
  rewrite H1 in F1. rewrite H2 in R2, P2, N2, F2. rewrite H3 in F3.
  cbn [outcome events final fst snd] in *.
  assert (Hrep : replies t2 <> []).
  { intro Hnil. rewrite Hnil, P2 in N2. cbn [List.length] in N2.
    pose proof (batches_run_pos (num_valid_batches args) 0) as Hpos.
    destruct (batches_run (num_valid_batches args) 0); [lia|].
    destruct (dl_pass vl (w_passes w1 (dl_split vl))) eqn:E;
      [exact (Hne _ E)|discriminate N2]. }
  destruct (aggregate_rounds_mean (field_nonempty 1 Hrep)) as (r & Hr & _).
  injection R2 as R2. subst s2. cbn [summary2] in *.
  eexists _, w3, (EvPrint epoch :: t1 ++ t2 ++ t3), r.
  split; [apply (run_epoch_steps epoch args tl vl tel w H1 H2 H3)|].
  split.
  - destruct F1 as (_ & B1 & _), F2 as (_ & B2 & _), F3 as (_ & B3 & _).
    congruence.
  - cbn. rewrite Hr. auto.
Qed.

End TrackedEpochs.

Lemma two_epochs_yield : yields_epochs 0 two_epochs.
Proof.
  repeat split;
    apply (run_epoch_yields_epoch stub_replies_train stub_replies_eval);
    intro n; discriminate.
Qed.

(** The two epochs of the stub learner reach the same accuracy: only the
    first one is reported as best. *)
Example two_epochs_best_flags :
  match outcome (tracked_run two_epochs stub_world) with
  | Ok reports => map (fun r => snd (fst r)) reports = [true; false]
  | Raise _ => False
  end.
Proof. vm_compute. reflexivity. Qed.

(** The end-to-end scenario of the spec (section 8): the first epoch of the
    stub learner with [num_train_batches=2] and [num_valid_batches=1]. *)
Example end_to_end_scenario :
  outcome (BestTracker
             (run_epoch 0 (stub_args "MAML" 1 2 1) (stub_loader SplitTrain)
                (stub_loader SplitVal) (stub_loader SplitTest)) stub_world)
  = Ok (scenario_row, true).
Proof. vm_compute. reflexivity. Qed.

Lemma best_tracker_reports_strict_improvements_witness :
  (forall (func : @M nat state (list (string * OrderedDict.t)) OrderedDict.t)
          v0 v1 res t v e,
     func v0 = (Ok res, v1, t) ->
     OrderedDict.get res "valid_acc" = Some (PyFloat v) ->
     OrderedDict.get res "epoch" = Some (PyInt e) ->
     let is_best := np_gt v (best_value (w_best v1)) in
     BestTracker func v0 =
       (Ok (res, is_best),
        (if is_best then set_best v1 (mkBest v e) else v1), t)) /\
  exists reports,
    outcome (tracked_run two_epochs stub_world) = Ok reports /\
    List.length reports = List.length two_epochs /\
    forall e, (e < List.length two_epochs)%nat ->
      let d := ([], false, BestState_init) in
      let acc := fun j => valid_acc_of (fst (fst (nth j reports d))) in
      let is_best := snd (fst (nth e reports d)) in
      let before :=
        match e with O => BestState_init | S e' => snd (nth e' reports d) end in
      OrderedDict.get (fst (fst (nth e reports d))) "epoch"
        = Some (PyInt (Z.of_nat e)) /\
      is_best = np_gt (Num (acc e)) (best_value before) /\
      (is_best = true <-> forall j, (j < e)%nat -> (acc j < acc e)%Q) /\
      snd (nth e reports d) =
        (if is_best then mkBest (Num (acc e)) (Z.of_nat e) else before) /\
      ((S e < List.length two_epochs)%nat ->
       (acc (S e) == acc e)%Q ->
       snd (fst (nth (S e) reports d)) = false).
Proof.
  apply (best_tracker_reports_strict_improvements two_epochs stub_world).
  - reflexivity.
  - exact two_epochs_yield.
Defined.

(* ================================================================== *)
(** ** [main] *)

Lemma select_alg_name (a : Alg) : select_alg (alg_name a) = Some a.
Proof. destruct a; reflexivity. Qed.

Lemma select_alg_unknown (name : string) :
  ~ In name ["MAML"; "Reptile"; "Neumann"; "CAVIA"; "iMAML"; "FOMAML"]%string ->
  select_alg name = None.
Proof.
  intro Hnot. unfold select_alg.
  repeat match goal with
         | |- context [String.eqb name ?s] =>
             destruct (String.eqb_spec name s) as [->|_];
             [exfalso; apply Hnot; cbn; tauto|]
         end.
  reflexivity.
Qed.

Section MainDispatch.

Context {Batch L F : Type}.
Context {learner : MetaLearner Batch L}.
Context {collab : Collaborators Batch F}.

(** C8. When the algorithm name is none of the six known names, [main]
    raises [ValueError] and nothing has happened before: its trace is
    empty, so no checkpoint was loaded, no loader built and no phase run,
    and no learner exists.  When the name is one of the six, the learner of
    that name is built first and the rest of [main] runs on it. *)
Theorem main_rejects_unknown_algorithms (args : Args) (fs : F) :
  (~ In (alg args)
        ["MAML"; "Reptile"; "Neumann"; "CAVIA"; "iMAML"; "FOMAML"]%string ->
   main args fs =
     (Raise (ValueError "Not implemented Meta-Learning Algorithm"), None, [])) /\
  (forall a : Alg,
     alg args = alg_name a ->
     main args fs =
       let w0 := mkWorld (model_new a args) true BestState_init fs
                   (fun _ => O) in
       let '(r, w, t) := main_with_model args w0 in
       (r, Some w, EvNew a :: t)).
Proof.
  split.
  - intro Hnot. unfold main. rewrite (select_alg_unknown Hnot). reflexivity.
  - intros a Ha. unfold main. rewrite Ha, select_alg_name. reflexivity.
Qed.

End MainDispatch.

Lemma main_rejects_unknown_algorithms_witness :
  main (stub_args "SGD" 1 2 1) [] =
    (Raise (ValueError "Not implemented Meta-Learning Algorithm"), None, []) /\
  main (stub_args "iMAML" 1 2 1) [] =
    (let w0 := mkWorld (model_new iMAML (stub_args "iMAML" 1 2 1)) true
                 BestState_init [] (fun _ => O) in
     let '(r, w, t) := main_with_model (stub_args "iMAML" 1 2 1) w0 in
     (r, Some w, EvNew iMAML :: t)).
Proof.
  split.
  - apply (proj1 (main_rejects_unknown_algorithms (stub_args "SGD" 1 2 1) [])).
    cbn. intuition discriminate.
  - apply (proj2 (main_rejects_unknown_algorithms (stub_args "iMAML" 1 2 1) [])
             iMAML).
    reflexivity.
Defined.

(* ================================================================== *)
(** ** The events of [main] *)

Section MainEvents.

Context {Batch L F : Type}.
Context {learner : MetaLearner Batch L}.
Context {collab : Collaborators Batch F}.

Local Abbreviation M := (@M Batch L F).
Local Abbreviation World := (@World L F).
Local Abbreviation event := (@event Batch).

Lemma emits_weaken {A : Type} (P Q : event -> bool) (m : M A) :
  (forall e, P e = true -> Q e = true) -> emits_only P m -> emits_only Q m.
Proof.
  intros HPQ Hm w. eapply Forall_impl; [|apply Hm]. exact HPQ.
Qed.

Lemma emits_call_dict2tsv (P : event -> bool) res filename :
  (forall ok, P (EvDict2tsv res filename ok) = true) ->
  emits_only P (call_dict2tsv res filename : M _).
Proof.
  intros H w. unfold call_dict2tsv.
  destruct (dict2tsv _ _ _) as [fs' r]. cbn. auto.
Qed.

Lemma emits_call_save (P : event -> bool) tag :
  (forall ok, P (EvSave tag ok) = true) ->
  emits_only P (call_save tag : M _).
Proof.
  intros H w. unfold call_save.
  destruct (model_save _ _) as [l' r]. cbn. auto.
Qed.

Lemma emits_call_lr_sched (P : event -> bool) :
  (forall ok, P (EvLrSched ok) = true) ->
  emits_only P (call_lr_sched : M _).
Proof.
  intros H w. unfold call_lr_sched.
  destruct (model_lr_sched _) as [l' r]. cbn. auto.
Qed.

Lemma tracked_epoch_emits_phase epoch (args : Args) (tl vl tel : DataLoader Batch) :
  emits_only (L := L) (F := F) is_phase
    (BestTracker (run_epoch epoch args tl vl tel)).
Proof. apply BestTracker_emits, run_epoch_emits_phase. Qed.

Lemma phase_is_epoch (e : event) : is_phase e = true -> is_epoch e = true.
Proof. destruct e; cbn; congruence. Qed.

Lemma epoch_iteration_emits_epoch (args : Args) (tl vl tel : DataLoader Batch) epoch :
  emits_only (L := L) (F := F) is_epoch (epoch_iteration args tl vl tel epoch).
Proof.
  unfold epoch_iteration. apply emits_bind.
  - eapply emits_weaken; [exact phase_is_epoch|].
    apply tracked_epoch_emits_phase.
  - intros [res is_best].
    emits;
      first [ apply emits_call_dict2tsv; reflexivity
            | apply emits_call_save; reflexivity
            | apply emits_call_lr_sched; reflexivity ].
Qed.

Lemma for_range_emits (P : event -> bool) (body : Z -> M unit) :
  (forall i, emits_only P (body i)) ->
  forall count i, emits_only P (for_range count i body).
Proof.
  intros Hbody. induction count as [|count IH]; intro i; cbn [for_range].
  - apply emits_ret.
  - apply emits_bind; [apply Hbody|intros _; apply IH].
Qed.

Lemma make_loader_emits (P : event -> bool) (args : Args) (s : Split) :
  P (EvLoader s) = true -> emits_only P (make_loader args s : M _).
Proof.
  intro H. unfold make_loader. apply emits_bind.
  - apply emits_emit, H.
  - intros _. apply emits_ret.
Qed.

(** What follows the first call of a sequence. *)
Lemma bind_events_tail {A B : Type} (P : event -> bool)
    (m : M A) (k : A -> M B) (w : World) :
  (forall a, emits_only P (k a)) ->
  exists t2,
    events (bind m k w) = events (m w) ++ t2 /\
    Forall (fun e => P e = true) t2.
Proof.
  intro Hk. unfold bind.
  destruct (m w) as [[[a|e] w1] t1]; cbn.
  - specialize (Hk a w1). destruct (k a w1) as [[r w2] t2]. cbn in Hk |- *.
    exists t2. auto.
  - exists []. rewrite app_nil_r. auto.
Qed.

(** C9. Once the learner [l0] of the requested algorithm is built, the
    next thing [main] does is: [model.load()] when [args.load] holds,
    whatever [args.load_encoder]; [model.load_encoder()] when [args.load]
    does not hold and [args.load_encoder] does; nothing when neither holds.
    Everything else that [main] does, the building of the loaders and the
    epochs, comes after, and never loads a checkpoint again. *)
Theorem checkpoint_load_precedence (args : Args) (fs : F) (a : Alg) :
  alg args = alg_name a ->
  let l0 := model_new a args in
  exists rest,
    snd (main args fs) =
      EvNew a ::
      (if load args then [EvLoad (is_ok (snd (model_load l0)))]
       else if load_encoder args
            then [EvLoadEncoder (is_ok (snd (model_load_encoder l0)))]
            else []) ++ rest /\
    Forall (fun e => is_load e = false) rest /\
    Forall (fun e => is_epoch e = true \/ exists s, e = EvLoader s) rest.
Proof.
  intros Ha l0. unfold main. rewrite Ha, select_alg_name.
  set (w0 := mkWorld (model_new a args) true BestState_init fs (fun _ => O)).
  set (P := fun e : event =>
              (negb (is_load e) &&
               (is_epoch e || match e with EvLoader _ => true | _ => false end))%bool).
  assert (HP : forall e, is_epoch e = true -> P e = true)
    by (intros e; destruct e; cbn; congruence).
  destruct (@bind_events_tail unit unit P
              (if load args then call_load
               else if load_encoder args then call_load_encoder else ret tt)
              (fun _ =>
                 (train_loader <- make_loader args SplitTrain ;;
                  valid_loader <- make_loader args SplitVal ;;
                  test_loader <- make_loader args SplitTest ;;
                  for_range (Z.to_nat (num_epoch args)) 0
                    (epoch_iteration args train_loader valid_loader
                       test_loader))%monad) w0) as (rest & Hev & Hrest).
  { intros _.
    repeat (apply emits_bind; [apply make_loader_emits; reflexivity|intro]).
    apply for_range_emits. intro i.
    eapply emits_weaken; [exact HP|]. apply epoch_iteration_emits_epoch. }
  exists rest. fold (main_with_model args) in Hev.
  destruct (main_with_model args w0) as [[r w'] t]. cbn [events snd] in Hev |- *.
  rewrite Hev. split; [|split].
  - f_equal. f_equal. subst w0 l0. unfold call_load, call_load_encoder.
    cbn [w_model].
    destruct (load args); [destruct (model_load _); reflexivity|].
    destruct (load_encoder args);
      [destruct (model_load_encoder _); reflexivity|reflexivity].
  - eapply Forall_impl; [|exact Hrest]. intros e He. subst P. cbn in He.
    apply andb_true_iff in He. destruct He as (He & _).
    now apply negb_true_iff in He.
  - eapply Forall_impl; [|exact Hrest]. intros e He. subst P. cbn in He.
    apply andb_true_iff in He. destruct He as (_ & He).
    apply orb_true_iff in He. destruct He as [He|He]; [left; exact He|].
    right. destruct e; try discriminate. eauto.
Qed.

End MainEvents.

Lemma checkpoint_load_precedence_witness :
  let args := mkArgs "MAML" true true false 1 2 1 32 5 15 5 4
                "../data/" "./result" "result.tsv" in
  let l0 := model_new MAML args in
  exists rest,
    snd (main args []) =
      EvNew MAML ::
      (if load args then [EvLoad (is_ok (snd (model_load l0)))]
       else if load_encoder args
            then [EvLoadEncoder (is_ok (snd (model_load_encoder l0)))]
            else []) ++ rest /\
    Forall (fun e => is_load e = false) rest /\
    Forall (fun e => is_epoch e = true \/ exists s, e = EvLoader s) rest.
Proof.
  apply (checkpoint_load_precedence
           (mkArgs "MAML" true true false 1 2 1 32 5 15 5 4
              "../data/" "./result" "result.tsv") [] MAML).
  reflexivity.
Defined.

(* ================================================================== *)
(** ** The result log and the checkpoint *)

Section SaveAfterWrite.

Context {Batch : Type}.

Local Abbreviation event := (@event Batch).




End SaveAfterWrite.


Section Checkpoint.

Context {Batch L F : Type}.
Context {learner : MetaLearner Batch L}.
Context {collab : Collaborators Batch F}.

Local Abbreviation M := (@M Batch L F).
Local Abbreviation World := (@World L F).
Local Abbreviation event := (@event Batch).









End Checkpoint.


(** A failing checkpoint save: the row of the epoch is in the log when
    [model.save] raises, and the two last events of the iteration are the
    write of the row and the failed save. *)
Example save_fails_after_the_row_is_written :
  let args := stub_args "MAML" 1 2 1 in
  let x := epoch_iteration args (stub_loader SplitTrain) (stub_loader SplitVal)
             (stub_loader SplitTest) 0 failing_save_world in
  outcome x = Raise (Failure "save") /\
  w_fs (final x) = [(log_filename args, scenario_row)] /\
  skipn (List.length (events x) - 2) (events x) =
    [EvDict2tsv scenario_row (log_filename args) true;
     EvSave (task_tag args) false].
Proof. cbv zeta. repeat split; vm_compute; reflexivity. Qed.

(* ================================================================== *)
(** * Further properties of the driver *)

(** ** How many batches a phase handles, whatever the budget *)

Section BatchCount.

Context {Batch L F : Type}.
Context {learner : MetaLearner Batch L}.

Local Abbreviation World := (@World L F).

(** X1. Whatever the sign of the budget [k], a phase hands to [outer_loop] the
    first [max 1 (k + 1)] batches of the pass, or all of them when the pass
    is shorter; it asks the loader once more than that only when the pass
    ran dry.  So a budget of zero or less still processes one batch, and a
    pass of exactly [k + 1] batches is processed whole without the loader
    being asked for a further batch. *)
Theorem phase_batch_count
    (phase : Phase) (Hshape : replies_in (learner := learner) phase)
    (args : Args) (dl : DataLoader Batch) (w : World) :
  let pbar := dl_pass dl (w_passes w (dl_split dl)) in
  let k := max_batches phase args in
  let n := Z.to_nat (Z.max 1 (k + 1)) in
  let x := run_phase phase args dl w in
  is_ok (outcome x) = true /\
  processed (events x) = firstn n pbar /\
  List.length (processed (events x)) = Nat.min n (List.length pbar) /\
  List.length (requested (events x)) = Nat.min n (S (List.length pbar)) /\
  ((k <= 0)%Z -> processed (events x) = firstn 1 pbar) /\
  (List.length pbar = n -> processed (events x) = pbar /\
                           List.length (requested (events x)) = n).
Proof.
  intros pbar k n x. subst x.
  destruct (phase_run phase Hshape args dl w) as (Hr & Hp & _ & Hq & _).
  fold pbar k in Hp, Hq.
  assert (Hn : batches_run k 0 = n)
    by (unfold batches_run; subst n; f_equal; lia).
  rewrite Hn in Hp, Hq. rewrite Hr, Hp, Hq.
  rewrite length_firstn, length_map, length_seq.
  repeat split.
  - apply Nat.min_comm.
  - intro Hk. replace n with 1%nat by (subst n; lia). reflexivity.
  - apply firstn_all2. lia.
  - lia.
Qed.

End BatchCount.

Lemma phase_batch_count_witness :
  let x := run_phase TrainPhase (stub_args "MAML" 1 (-3) 1)
             (stub_loader SplitTrain) stub_world in
  processed (events x) = [0%nat] /\ requested (events x) = [0%Z].
Proof.
  destruct (phase_batch_count TrainPhase (stub_replies_in TrainPhase)
              (stub_args "MAML" 1 (-3) 1) (stub_loader SplitTrain) stub_world)
    as (_ & Hp & _).
  split; [exact Hp|reflexivity].
Defined.

(* ================================================================== *)
(** ** A batch on which [outer_loop] fails *)

Section ObservationFacts.

Context {Batch : Type}.

Local Abbreviation event := (@event Batch).

Lemma processed_app (t t' : list event) :
  processed (t ++ t') = processed t ++ processed t'.
Proof. apply flat_map_app. Qed.

Lemma replies_app (t t' : list event) :
  replies (t ++ t') = replies t ++ replies t'.
Proof. apply flat_map_app. Qed.

Lemma described_app (t t' : list event) :
  described (t ++ t') = described t ++ described t'.
Proof. apply flat_map_app. Qed.

Lemma requested_app (t t' : list event) :
  requested (t ++ t') = requested t ++ requested t'.
Proof. apply flat_map_app. Qed.

Lemma modes_app (t t' : list event) :
  modes (t ++ t') = modes t ++ modes t'.
Proof. apply flat_map_app. Qed.

Lemma writes_app (t t' : list event) :
  writes (t ++ t') = writes t ++ writes t'.
Proof. apply flat_map_app. Qed.

Lemma loaders_built_app (t t' : list event) :
  loaders_built (t ++ t') = loaders_built t ++ loaders_built t'.
Proof. apply flat_map_app. Qed.

End ObservationFacts.

Section FailingBatch.

Context {Batch L F : Type}.
Context {learner : MetaLearner Batch L}.

Local Abbreviation M := (@M Batch L F).
Local Abbreviation World := (@World L F).
Local Abbreviation event := (@event Batch).

Lemma indices_app (idx : Z) (n : nat) :
  map (fun i => (idx + Z.of_nat i)%Z) (seq 0 (S n)) =
  map (fun i => (idx + Z.of_nat i)%Z) (seq 0 n) ++ [(idx + Z.of_nat n)%Z].
Proof. rewrite seq_S, map_app. reflexivity. Qed.

(** The loop of [train] over a prefix of good batches that the budget lets
    it cross: it handles them all and goes on with the rest of the pass. *)
Lemma train_loop_prefix k s :
  forall (pre rest : list Batch) idx ll al gl (w : World),
    Forall (replies_on learner TrainPhase) pre ->
    (pre = [] \/ idx + Z.of_nat (List.length pre) <= k)%Z ->
    exists t1 w1,
      processed t1 = pre /\
      List.length (replies t1) = List.length pre /\
      List.length (described t1) = List.length pre /\
      requested t1 =
        map (fun i => (idx + Z.of_nat i)%Z) (seq 0 (List.length pre)) /\
      same_frame w w1 /\ w_passes w1 = w_passes w /\
      train_loop k s idx (pre ++ rest) ll al gl w =
      let '(r, w2, t2) :=
        train_loop k s (idx + Z.of_nat (List.length pre)) rest
          (ll ++ field 0 (replies t1)) (al ++ field 1 (replies t1))
          (gl ++ field 2 (replies t1)) w1 in
      (r, w2, t1 ++ t2).
Proof.
  induction pre as [|b pre IH]; intros rest idx ll al gl w Hgood Hreach.
  - exists [], w. cbn [List.length app processed replies described requested
                       flat_map seq map field].
    rewrite Z.add_0_r, !app_nil_r.
    repeat split.
    destruct (train_loop k s idx rest ll al gl w) as [[r w2] t2]. reflexivity.
  - inversion Hgood as [|b0 pre0 Hb Hpre]; subst b0 pre0.
    destruct (Hb (w_model w) (w_grad w)) as (l' & tuple & E & Hlen).
    destruct tuple as [|lo [|ac [|gr [|extra tuple]]]]; try discriminate Hlen.
    cbn [phase_is_train] in E.
    assert (Hgo : (idx >=? k)%Z = false).
    { destruct Hreach as [Hnil|Hle]; [discriminate Hnil|].
      cbn [List.length] in Hle.
      destruct (Z.geb_spec idx k); [lia|reflexivity]. }
    destruct (IH rest (idx + 1)%Z (ll ++ [lo]) (al ++ [ac]) (gl ++ [gr])
                 (set_model w l') Hpre)
      as (t1 & w1 & Hp & Hr & Hd & Hq & Hf & Hpass & Hrun).
    { destruct pre; [left; reflexivity|right].
      destruct Hreach as [Hnil|Hle]; [discriminate Hnil|].
      cbn [List.length] in Hle |- *. lia. }
    exists ([EvNext s idx (Some b);
             EvOuterLoop b true (w_grad w) (Ok [lo; ac; gr]);
             EvDescribe [np_mean (ll ++ [lo]); np_mean (al ++ [ac]);
                         np_mean (gl ++ [gr])]] ++ t1), w1.
    unfold processed, replies, described, requested, field in *.
    cbn [flat_map app map nth List.length] in *.
    rewrite Hp, Hr, Hd, Hq.
    split; [reflexivity|]. split; [reflexivity|]. split; [reflexivity|].
    split; [rewrite indices_S; reflexivity|].
    split; [unfold same_frame in *; cbn in Hf; intuition auto|].
    split; [exact Hpass|].
    rewrite train_loop_cons with (l' := l') (lo := lo) (ac := ac) (gr := gr)
      by exact E.
    cbv zeta. rewrite Hgo, Hrun.
    replace (idx + Z.of_nat (S (List.length pre)))%Z
      with (idx + 1 + Z.of_nat (List.length pre))%Z by lia.
    rewrite <- !app_assoc. cbn [app].
    match goal with
    | |- context [train_loop k s ?i rest ?a ?b ?c w1] =>
        destruct (train_loop k s i rest a b c w1) as [[r w2] t2]
    end.
    reflexivity.
Qed.

Lemma valid_loop_prefix k s :
  forall (pre rest : list Batch) idx ll al (w : World),
    Forall (replies_on learner EvalPhase) pre ->
    (pre = [] \/ idx + Z.of_nat (List.length pre) <= k)%Z ->
    exists t1 w1,
      processed t1 = pre /\
      List.length (replies t1) = List.length pre /\
      List.length (described t1) = List.length pre /\
      requested t1 =
        map (fun i => (idx + Z.of_nat i)%Z) (seq 0 (List.length pre)) /\
      same_frame w w1 /\ w_passes w1 = w_passes w /\
      valid_loop k s idx (pre ++ rest) ll al w =
      let '(r, w2, t2) :=
        valid_loop k s (idx + Z.of_nat (List.length pre)) rest
          (ll ++ field 0 (replies t1)) (al ++ field 1 (replies t1)) w1 in
      (r, w2, t1 ++ t2).
Proof.
  induction pre as [|b pre IH]; intros rest idx ll al w Hgood Hreach.
  - exists [], w. cbn [List.length app processed replies described requested
                       flat_map seq map field].
    rewrite Z.add_0_r, !app_nil_r.
    repeat split.
    destruct (valid_loop k s idx rest ll al w) as [[r w2] t2]. reflexivity.
  - inversion Hgood as [|b0 pre0 Hb Hpre]; subst b0 pre0.
    destruct (Hb (w_model w) (w_grad w)) as (l' & tuple & E & Hlen).
    destruct tuple as [|lo [|ac [|extra tuple]]]; try discriminate Hlen.
    cbn [phase_is_train] in E.
    assert (Hgo : (idx >=? k)%Z = false).
    { destruct Hreach as [Hnil|Hle]; [discriminate Hnil|].
      cbn [List.length] in Hle.
      destruct (Z.geb_spec idx k); [lia|reflexivity]. }
    destruct (IH rest (idx + 1)%Z (ll ++ [lo]) (al ++ [ac])
                 (set_model w l') Hpre)
      as (t1 & w1 & Hp & Hr & Hd & Hq & Hf & Hpass & Hrun).
    { destruct pre; [left; reflexivity|right].
      destruct Hreach as [Hnil|Hle]; [discriminate Hnil|].
      cbn [List.length] in Hle |- *. lia. }
    exists ([EvNext s idx (Some b);
             EvOuterLoop b false (w_grad w) (Ok [lo; ac]);
             EvDescribe [np_mean (ll ++ [lo]); np_mean (al ++ [ac])]] ++ t1), w1.
    unfold processed, replies, described, requested, field in *.
    cbn [flat_map app map nth List.length] in *.
    rewrite Hp, Hr, Hd, Hq.
    split; [reflexivity|]. split; [reflexivity|]. split; [reflexivity|].
    split; [rewrite indices_S; reflexivity|].
    split; [unfold same_frame in *; cbn in Hf; intuition auto|].
    split; [exact Hpass|].
    rewrite valid_loop_cons with (l' := l') (lo := lo) (ac := ac) by exact E.
    cbv zeta. rewrite Hgo, Hrun.
    replace (idx + Z.of_nat (S (List.length pre)))%Z
      with (idx + 1 + Z.of_nat (List.length pre))%Z by lia.
    rewrite <- !app_assoc. cbn [app].
    match goal with
    | |- context [valid_loop k s ?i rest ?a ?b w1] =>
        destruct (valid_loop k s i rest a b w1) as [[r w2] t2]
    end.
    reflexivity.
Qed.

(** The iteration of a loop on a batch on which [outer_loop] raises, or
    returns a tuple that cannot be unpacked. *)
Lemma train_loop_raise k s idx (b : Batch) post ll al gl (w : World) l' e :
  model_outer_loop (w_model w) b true (w_grad w) = (l', Raise e) ->
  train_loop k s idx (b :: post) ll al gl w =
  (Raise e, set_model w l',
   [EvNext s idx (Some b); EvOuterLoop b true (w_grad w) (Raise e)]).
Proof.
  intro E. cbn [train_loop]. unfold bind, emit, call_outer_loop.
  rewrite E. reflexivity.
Qed.

Lemma valid_loop_raise k s idx (b : Batch) post ll al (w : World) l' e :
  model_outer_loop (w_model w) b false (w_grad w) = (l', Raise e) ->
  valid_loop k s idx (b :: post) ll al w =
  (Raise e, set_model w l',
   [EvNext s idx (Some b); EvOuterLoop b false (w_grad w) (Raise e)]).
Proof.
  intro E. cbn [valid_loop]. unfold bind, emit, call_outer_loop.
  rewrite E. reflexivity.
Qed.

Lemma train_loop_misshape (tuple : list Q) :
  List.length tuple <> 3%nat ->
  exists msg,
    forall k s idx (b : Batch) post ll al gl (w : World) l',
      model_outer_loop (w_model w) b true (w_grad w) = (l', Ok tuple) ->
      train_loop k s idx (b :: post) ll al gl w =
      (Raise (ValueError msg), set_model w l',
       [EvNext s idx (Some b); EvOuterLoop b true (w_grad w) (Ok tuple)]).
Proof.
  intros Hlen.
  destruct tuple as [|x1 [|x2 [|x3 [|x4 tuple]]]];
    try (now contradiction Hlen);
    eexists; intros k s idx b post ll al gl w l' E;
    cbn [train_loop]; unfold bind, emit, call_outer_loop;
    rewrite E; reflexivity.
Qed.

Lemma valid_loop_misshape (tuple : list Q) :
  List.length tuple <> 2%nat ->
  exists msg,
    forall k s idx (b : Batch) post ll al (w : World) l',
      model_outer_loop (w_model w) b false (w_grad w) = (l', Ok tuple) ->
      valid_loop k s idx (b :: post) ll al w =
      (Raise (ValueError msg), set_model w l',
       [EvNext s idx (Some b); EvOuterLoop b false (w_grad w) (Ok tuple)]).
Proof.
  intros Hlen.
  destruct tuple as [|x1 [|x2 [|x3 tuple]]];
    try (now contradiction Hlen);
    eexists; intros k s idx b post ll al w l' E;
    cbn [valid_loop]; unfold bind, emit, call_outer_loop;
    rewrite E; reflexivity.
Qed.

(** A phase that meets, after good batches that the budget lets it cross,
    a batch on which every iteration of its loop fails in the way [P]. *)
Lemma phase_aborts
    (P : result (list Q) -> exn -> Prop)
    (phase : Phase) (args : Args) (dl : DataLoader Batch) (w : World)
    (pre : list Batch) (b : Batch) (post : list Batch) :
  dl_pass dl (w_passes w (dl_split dl)) = pre ++ b :: post ->
  Forall (replies_on learner phase) pre ->
  (Z.of_nat (List.length pre) <= Z.max 0 (max_batches phase args))%Z ->
  (forall l g, exists l' r e,
     model_outer_loop l b (phase_is_train phase) g = (l', r) /\ P r e /\
     forall k s idx ll al gl (v : World),
       w_model v = l -> w_grad v = g ->
       match phase with
       | TrainPhase =>
           train_loop k s idx (b :: post) ll al gl v =
           (Raise e, set_model v l',
            [EvNext s idx (Some b); EvOuterLoop b true g r])
       | EvalPhase =>
           valid_loop k s idx (b :: post) ll al v =
           (Raise e, set_model v l',
            [EvNext s idx (Some b); EvOuterLoop b false g r])
       end) ->
  let x := run_phase phase args dl w in
  exists g r e t0,
    P r e /\
    outcome x = Raise e /\
    events x = t0 ++ [EvOuterLoop b (phase_is_train phase) g r] /\
    processed (events x) = pre ++ [b] /\
    List.length (replies t0) = List.length pre /\
    List.length (described (events x)) = List.length pre /\
    requested (events x) = map Z.of_nat (seq 0 (S (List.length pre))) /\
    same_frame w (final x).
Proof.
  intros Hpass Hgood Hreach Hfail x. subst x.
  assert (Hcross : pre = [] \/
                   (0 + Z.of_nat (List.length pre) <= max_batches phase args)%Z).
  { destruct pre; [left; reflexivity|right]. cbn [List.length] in *. lia. }
  destruct phase; cbn [max_batches phase_is_train] in *.
  - rewrite run_phase_train, train_unfold, Hpass.
    destruct (train_loop_prefix (k := num_train_batches args) (dl_split dl)
                (b :: post) 0 [] [] [] (final (start_pass dl w)) Hgood Hcross)
      as (t1 & w1 & Hp & Hr & Hd & Hq & Hf & _ & Hrun).
    rewrite Hrun. clear Hrun.
    destruct (Hfail (w_model w1) (w_grad w1)) as (l' & r & e & _ & HP & Hstep).
    rewrite (Hstep (num_train_batches args) (dl_split dl) _ _ _ _ w1
               eq_refl eq_refl).
    cbn [outcome events final fst snd].
    exists (w_grad w1), r, e, (t1 ++ [EvNext (dl_split dl)
                                      (0 + Z.of_nat (List.length pre))
                                      (Some b)]).
    rewrite indices_0 in Hq.
    split; [exact HP|]. split; [reflexivity|].
    split; [rewrite <- app_assoc; reflexivity|].
    rewrite !processed_app, !described_app, !requested_app, !replies_app.
    rewrite !length_app, Hp, Hd, Hq, Hr, seq_S, map_app.
    cbn [processed described requested replies flat_map app List.length map].
    rewrite ?app_nil_r, ?Nat.add_0_r.
    repeat split; unfold same_frame in Hf; cbn in Hf |- *; intuition auto.
  - rewrite run_phase_eval, valid_unfold, Hpass.
    destruct (valid_loop_prefix (k := num_valid_batches args) (dl_split dl)
                (b :: post) 0 [] []
                (final (start_pass dl (set_grad w false))) Hgood Hcross)
      as (t1 & w1 & Hp & Hr & Hd & Hq & Hf & _ & Hrun).
    rewrite Hrun. clear Hrun.
    destruct (Hfail (w_model w1) (w_grad w1)) as (l' & r & e & _ & HP & Hstep).
    rewrite (Hstep (num_valid_batches args) (dl_split dl) _ _ _ [] w1
               eq_refl eq_refl).
    cbn [outcome events final fst snd].
    exists (w_grad w1), r, e, (t1 ++ [EvNext (dl_split dl)
                                      (0 + Z.of_nat (List.length pre))
                                      (Some b)]).
    rewrite indices_0 in Hq.
    split; [exact HP|]. split; [reflexivity|].
    split; [rewrite <- app_assoc; reflexivity|].
    rewrite !processed_app, !described_app, !requested_app, !replies_app.
    rewrite !length_app, Hp, Hd, Hq, Hr, seq_S, map_app.
    cbn [processed described requested replies flat_map app List.length map].
    rewrite ?app_nil_r, ?Nat.add_0_r.
    repeat split; unfold same_frame in Hf; cbn in Hf |- *; intuition auto.
Qed.

(** X2. When [outer_loop] raises on a batch that the phase reaches after good
    batches, the phase raises the same exception at once: the failing call
    is its last event, the batches after it are neither requested nor
    processed, no progress is shown for the failing batch, the tuples
    collected so far are dropped, and the world keeps its gradient mode,
    tracker and file system. *)
Theorem learner_exception_aborts_phase
    (phase : Phase) (args : Args) (dl : DataLoader Batch) (w : World)
    (pre : list Batch) (b : Batch) (post : list Batch) (e : exn) :
  dl_pass dl (w_passes w (dl_split dl)) = pre ++ b :: post ->
  Forall (replies_on learner phase) pre ->
  raises_on learner phase b e ->
  (Z.of_nat (List.length pre) <= Z.max 0 (max_batches phase args))%Z ->
  let x := run_phase phase args dl w in
  outcome x = Raise e /\
  (exists t0 g,
     events x = t0 ++ [EvOuterLoop b (phase_is_train phase) g (Raise e)]) /\
  processed (events x) = pre ++ [b] /\
  List.length (replies (events x)) = List.length pre /\
  List.length (described (events x)) = List.length pre /\
  requested (events x) = map Z.of_nat (seq 0 (S (List.length pre))) /\
  same_frame w (final x).
Proof.
  intros Hpass Hgood Hraise Hreach x. subst x.
  destruct (@phase_aborts (fun r e' => r = Raise e /\ e' = e)
              phase args dl w pre b post Hpass Hgood Hreach)
    as (g & r & e' & t0 & (-> & ->) & Hout & Hev & Hp & Hr & Hd & Hq & Hf).
  { intros l g. destruct (Hraise l g) as (l' & E).
    exists l', (Raise e), e. split; [exact E|]. split; [auto|].
    intros k s idx ll al gl v <- <-.
    destruct phase; cbn [phase_is_train] in E.
    - apply train_loop_raise, E.
    - apply valid_loop_raise, E. }
  split; [exact Hout|]. split; [exists t0, g; exact Hev|].
  split; [exact Hp|]. split; [|auto].
  rewrite Hev, replies_app. cbn. rewrite app_nil_r. exact Hr.
Qed.

(** X3. When [outer_loop] returns, on a batch that the phase reaches after good
    batches, a tuple that has not the length the phase unpacks (3 when
    training, 2 when evaluating), the phase raises [ValueError] at once,
    the call that returned the tuple being its last event. *)
Theorem wrong_tuple_length_raises_value_error
    (phase : Phase) (args : Args) (dl : DataLoader Batch) (w : World)
    (pre : list Batch) (b : Batch) (post : list Batch) :
  dl_pass dl (w_passes w (dl_split dl)) = pre ++ b :: post ->
  Forall (replies_on learner phase) pre ->
  misshapes_on learner phase b ->
  (Z.of_nat (List.length pre) <= Z.max 0 (max_batches phase args))%Z ->
  let x := run_phase phase args dl w in
  exists msg tuple t0 g,
    outcome x = Raise (ValueError msg) /\
    List.length tuple <> arity phase /\
    events x = t0 ++ [EvOuterLoop b (phase_is_train phase) g (Ok tuple)] /\
    processed (events x) = pre ++ [b] /\
    List.length (described (events x)) = List.length pre /\
    requested (events x) = map Z.of_nat (seq 0 (S (List.length pre))) /\
    same_frame w (final x).
Proof.
  intros Hpass Hgood Hbad Hreach x. subst x.
  destruct (@phase_aborts
              (fun r e' => exists tuple msg,
                   r = Ok tuple /\ List.length tuple <> arity phase /\
                   e' = ValueError msg)
              phase args dl w pre b post Hpass Hgood Hreach)
    as (g & r & e' & t0 & (tuple & msg & -> & Hlen & ->)
        & Hout & Hev & Hp & Hr & Hd & Hq & Hf).
  { intros l g. destruct (Hbad l g) as (l' & tuple & E & Hlen).
    destruct phase; cbn [phase_is_train arity] in E, Hlen.
    - destruct (@train_loop_misshape tuple Hlen) as (msg & Hstep).
      exists l', (Ok tuple), (ValueError msg).
      split; [exact E|]. split; [eauto|].
      intros k s idx ll al gl v <- <-. apply Hstep, E.
    - destruct (@valid_loop_misshape tuple Hlen) as (msg & Hstep).
      exists l', (Ok tuple), (ValueError msg).
      split; [exact E|]. split; [eauto|].
      intros k s idx ll al gl v <- <-. apply Hstep, E. }
  exists msg, tuple, t0, g. auto 10.
Qed.

End FailingBatch.

Lemma flaky_replies_on (phase : Phase) (b : nat) :
  b <> 3%nat -> b <> 5%nat -> replies_on flaky_learner phase b.
Proof.
  intros H3 H5 l g. cbn.
  apply Nat.eqb_neq in H3, H5. rewrite H3, H5.
  destruct phase; cbn; do 2 eexists; split; reflexivity.
Qed.

Lemma learner_exception_aborts_phase_witness :
  let x := run_phase (learner := flaky_learner) TrainPhase
             (stub_args "MAML" 1 10 1)
             (fixed_loader SplitTrain [0; 1; 3; 4]%nat) stub_world in
  outcome x = Raise (Failure "diverged") /\
  (exists t0 g,
     events x = t0 ++ [EvOuterLoop 3%nat true g (Raise (Failure "diverged"))]) /\
  processed (events x) = [0; 1]%nat ++ [3%nat] /\
  List.length (replies (events x)) = List.length [0; 1]%nat /\
  List.length (described (events x)) = List.length [0; 1]%nat /\
  requested (events x) = map Z.of_nat (seq 0 (S (List.length [0; 1]%nat))) /\
  same_frame stub_world (final x).
Proof.
  apply (@learner_exception_aborts_phase nat state _ flaky_learner TrainPhase
           (stub_args "MAML" 1 10 1)
           (fixed_loader SplitTrain [0; 1; 3; 4]%nat) stub_world
           [0; 1]%nat 3%nat [4%nat] (Failure "diverged")).
  - reflexivity.
  - repeat constructor; apply flaky_replies_on; discriminate.
  - intros l g. eexists. reflexivity.
  - vm_compute. discriminate.
Defined.

Lemma wrong_tuple_length_raises_value_error_witness :
  let x := run_phase (learner := flaky_learner) EvalPhase
             (stub_args "MAML" 1 10 4)
             (fixed_loader SplitVal [0; 5; 1]%nat) stub_world in
  exists msg tuple t0 g,
    outcome x = Raise (ValueError msg) /\
    List.length tuple <> arity EvalPhase /\
    events x = t0 ++ [EvOuterLoop 5%nat false g (Ok tuple)] /\
    processed (events x) = [0%nat] ++ [5%nat] /\
    List.length (described (events x)) = List.length [0%nat] /\
    requested (events x) = map Z.of_nat (seq 0 (S (List.length [0%nat]))) /\
    same_frame stub_world (final x).
Proof.
  apply (@wrong_tuple_length_raises_value_error nat state _ flaky_learner
           EvalPhase (stub_args "MAML" 1 10 4)
           (fixed_loader SplitVal [0; 5; 1]%nat) stub_world
           [0%nat] 5%nat [1%nat]).
  - reflexivity.
  - repeat constructor; apply flaky_replies_on; discriminate.
  - intros l g. do 2 eexists. split; [reflexivity|]. discriminate.
  - vm_compute. discriminate.
Defined.

(* ================================================================== *)
(** ** What the progress bar shows *)

Section Progress.

Context {Batch L F : Type}.
Context {learner : MetaLearner Batch L}.

Local Abbreviation M := (@M Batch L F).
Local Abbreviation World := (@World L F).
Local Abbreviation event := (@event Batch).








End Progress.


(* ================================================================== *)
(** ** What the phases and the epoch routine leave alone *)

Section Frames.

Context {Batch L F : Type}.
Context {learner : MetaLearner Batch L}.

Local Abbreviation M := (@M Batch L F).
Local Abbreviation World := (@World L F).
Local Abbreviation event := (@event Batch).

Lemma same_frame_refl (w : World) : same_frame w w.
Proof. unfold same_frame. auto. Qed.

Lemma same_frame_trans (w1 w2 w3 : World) :
  same_frame w1 w2 -> same_frame w2 w3 -> same_frame w1 w3.
Proof. unfold same_frame. intuition congruence. Qed.

Lemma keeps_frame_ret {A : Type} (a : A) : keeps_frame (ret a : M A).
Proof. intro w. apply same_frame_refl. Qed.

Lemma keeps_frame_emit (e : event) : keeps_frame (emit e : M unit).
Proof. intro w. apply same_frame_refl. Qed.

Lemma keeps_frame_bind {A B : Type} (m : M A) (k : A -> M B) :
  keeps_frame m -> (forall a, keeps_frame (k a)) -> keeps_frame (bind m k).
Proof.
  intros Hm Hk w. unfold bind. specialize (Hm w).
  destruct (m w) as [[[a|e] w1] t1]; cbn in Hm |- *; [|exact Hm].
  specialize (Hk a w1). destruct (k a w1) as [[r w2] t2]. cbn in Hk |- *.
  eapply same_frame_trans; eassumption.
Qed.

(** The loops, whatever the learner does: the world keeps its frame and
    its pass counters, and [outer_loop] is called in the mode of the
    phase under the gradient mode the loop was started in. *)
Lemma train_loop_any :
  forall (pbar : list Batch) k s idx ll al gl (w : World),
    let x := train_loop k s idx pbar ll al gl w in
    same_frame w (final x) /\
    w_passes (final x) = w_passes w /\
    Forall (fun m => m = (true, w_grad w)) (modes (events x)).
Proof.
  induction pbar as [|b pbar IH]; intros k s idx ll al gl w x; subst x.
  - cbn. unfold same_frame. auto.
  - cbn [train_loop]. unfold bind, emit, call_outer_loop.
    destruct (model_outer_loop (w_model w) b true (w_grad w))
      as [l' [reply|e]]; cbn; [|unfold same_frame; cbn; auto 10].
    destruct reply as [|lo [|ac [|gr [|extra reply]]]]; cbn;
      try (unfold same_frame; cbn; auto 10).
    destruct (idx >=? k)%Z; [cbn; unfold same_frame; cbn; auto 10|].
    specialize (IH k s (idx + 1)%Z (ll ++ [lo]) (al ++ [ac]) (gl ++ [gr])
                   (set_model w l')).
    destruct (train_loop k s (idx + 1) pbar _ _ _ _) as [[r w2] t2].
    cbn in IH |- *. destruct IH as (Hf & Hpass & Hmodes).
    unfold same_frame in *. cbn in Hf. intuition auto.
Qed.

Lemma valid_loop_any :
  forall (pbar : list Batch) k s idx ll al (w : World),
    let x := valid_loop k s idx pbar ll al w in
    same_frame w (final x) /\
    w_passes (final x) = w_passes w /\
    Forall (fun m => m = (false, w_grad w)) (modes (events x)).
Proof.
  induction pbar as [|b pbar IH]; intros k s idx ll al w x; subst x.
  - cbn. unfold same_frame. auto.
  - cbn [valid_loop]. unfold bind, emit, call_outer_loop.
    destruct (model_outer_loop (w_model w) b false (w_grad w))
      as [l' [reply|e]]; cbn; [|unfold same_frame; cbn; auto 10].
    destruct reply as [|lo [|ac [|extra reply]]]; cbn;
      try (unfold same_frame; cbn; auto 10).
    destruct (idx >=? k)%Z; [cbn; unfold same_frame; cbn; auto 10|].
    specialize (IH k s (idx + 1)%Z (ll ++ [lo]) (al ++ [ac])
                   (set_model w l')).
    destruct (valid_loop k s (idx + 1) pbar _ _ _) as [[r w2] t2].
    cbn in IH |- *. destruct IH as (Hf & Hpass & Hmodes).
    unfold same_frame in *. cbn in Hf. intuition auto.
Qed.

Lemma train_world (args : Args) (dl : DataLoader Batch) (w : World) :
  same_frame w (final (train args dl w)) /\
  w_passes (final (train args dl w)) =
    one_more_pass (dl_split dl) (w_passes w).
Proof.
  rewrite train_unfold.
  pose proof (train_loop_any (dl_pass dl (w_passes w (dl_split dl)))
                (num_train_batches args) (dl_split dl) 0 [] [] []
                (final (start_pass dl w))) as H.
  cbv zeta in H.
  destruct (train_loop _ _ _ _ _ _ _ _) as [[[[[ll al] gl]|e] w'] t];
    cbn in H |- *; destruct H as (Hf & Hp & _);
    (split; [exact Hf|rewrite Hp; reflexivity]).
Qed.

Lemma valid_world (args : Args) (dl : DataLoader Batch) (w : World) :
  same_frame w (final (valid args dl w)) /\
  w_passes (final (valid args dl w)) =
    one_more_pass (dl_split dl) (w_passes w).
Proof.
  rewrite valid_unfold.
  pose proof (valid_loop_any (dl_pass dl (w_passes w (dl_split dl)))
                (num_valid_batches args) (dl_split dl) 0 [] []
                (final (start_pass dl (set_grad w false)))) as H.
  cbv zeta in H.
  destruct (valid_loop _ _ _ _ _ _ _) as [[[[ll al]|e] w'] t];
    cbn in H |- *; destruct H as (Hf & Hp & _);
    (split; [unfold same_frame in *; cbn in Hf |- *; intuition auto
            |rewrite Hp; reflexivity]).
Qed.



Lemma train_keeps_frame (args : Args) (dl : DataLoader Batch) :
  keeps_frame (L := L) (F := F) (train args dl).
Proof. intro w. apply train_world. Qed.

Lemma valid_keeps_frame (args : Args) (dl : DataLoader Batch) :
  keeps_frame (L := L) (F := F) (valid args dl).
Proof. intro w. apply valid_world. Qed.

Lemma run_epoch_keeps_frame epoch (args : Args) (tl vl tel : DataLoader Batch) :
  keeps_frame (L := L) (F := F) (run_epoch epoch args tl vl tel).
Proof.
  unfold run_epoch.
  apply keeps_frame_bind; [apply keeps_frame_emit|intros _].
  apply keeps_frame_bind; [apply train_keeps_frame|intros [[a b] c]].
  apply keeps_frame_bind; [apply valid_keeps_frame|intros [d e]].
  apply keeps_frame_bind; [apply valid_keeps_frame|intros [f g]].
  apply keeps_frame_ret.
Qed.


End Frames.

(* ================================================================== *)
(** ** One epoch iteration, exactly *)

Section Iteration.

Context {Batch L F : Type}.
Context {learner : MetaLearner Batch L}.
Context {collab : Collaborators Batch F}.

Local Abbreviation M := (@M Batch L F).
Local Abbreviation World := (@World L F).
Local Abbreviation event := (@event Batch).

(** The decorator adds no event and touches only the tracker. *)
Lemma BestTracker_transparent (func : M OrderedDict.t) (w : World) :
  events (BestTracker func w) = events (func w) /\
  w_model (final (BestTracker func w)) = w_model (final (func w)) /\
  w_fs (final (BestTracker func w)) = w_fs (final (func w)) /\
  w_grad (final (BestTracker func w)) = w_grad (final (func w)) /\
  w_passes (final (BestTracker func w)) = w_passes (final (func w)) /\
  (forall e, outcome (func w) = Raise e ->
     outcome (BestTracker func w) = Raise e /\
     w_best (final (BestTracker func w)) = w_best (final (func w))) /\
  (forall res b, outcome (BestTracker func w) = Ok (res, b) ->
     outcome (func w) = Ok res).
Proof.
  unfold BestTracker, bind, float_field, int_field, get_best, put_best, ret,
    raise.
  destruct (func w) as [[[res|e] w1] t]; cbn.
  - destruct (OrderedDict.get res "valid_acc") as [[z|x]|]; cbn;
      destruct (OrderedDict.get res "epoch") as [[z'|x']|]; cbn;
      try match goal with
          | |- context [if ?c then _ else _] => destruct c; cbn
          end;
      rewrite ?app_nil_r;
      repeat split; try discriminate; intros; congruence.
  - repeat split; try discriminate; intros; congruence.
Qed.

Lemma phase_events_no_writes (t : list event) :
  Forall (fun e => is_phase e = true) t ->
  writes t = [] /\ loaders_built t = [] /\
  Forall (fun e => is_save e = false) t /\
  filter is_empty_cache t = [] /\ filter is_lr_sched t = [].
Proof.
  induction 1 as [|e t He _ IH]; [cbn; auto|].
  destruct IH as (Hw & Hl & Hs & Hc & Hr).
  destruct e; cbn in He; try discriminate; cbn; auto.
Qed.

(** [run_epoch] stores the epoch index it was called with. *)
Lemma run_epoch_result_epoch epoch (args : Args)
    (tl vl tel : DataLoader Batch) (w : World) res :
  outcome (run_epoch epoch args tl vl tel w) = Ok res ->
  OrderedDict.get res "epoch" = Some (PyInt epoch).
Proof.
  unfold run_epoch, bind, emit.
  destruct (train args tl w) as [[[[[a b] c]|e] w1] t1]; cbn;
    [|discriminate].
  destruct (valid args vl w1) as [[[[d e]|e] w2] t2]; cbn; [|discriminate].
  destruct (valid args tel w2) as [[[[f g]|e'] w3] t3]; cbn; [|discriminate].
  intro H. injection H as <-. reflexivity.
Qed.

(** What follows the decorated call in an epoch iteration (lines 153-161),
    with the points at which a failure cuts it short. *)
Lemma after_epoch_exact (lr : bool) (fn tg : string) (res : OrderedDict.t)
    (is_best : bool) (w1 : World) :
  let k :=
    (call_dict2tsv res fn ;;
     (if is_best then call_save tg else ret tt) ;;
     emit EvEmptyCache ;;
     (if lr then call_lr_sched else ret tt))%monad in
  let rd := snd (dict2tsv (w_fs w1) res fn) in
  let saved := if is_best then model_save (w_model w1) tg
               else (w_model w1, Ok tt) in
  let stepped := if lr then model_lr_sched (fst saved)
                 else (fst saved, Ok tt) in
  outcome (k w1) =
    match rd with
    | Raise e => Raise e
    | Ok _ => match snd saved with
              | Raise e => Raise e
              | Ok _ => snd stepped
              end
    end /\
  events (k w1) =
    EvDict2tsv res fn (is_ok rd) ::
    (if is_ok rd
     then (if is_best then [EvSave tg (is_ok (snd saved))] else []) ++
          (if is_ok (snd saved)
           then EvEmptyCache ::
                (if lr then [EvLrSched (is_ok (snd stepped))] else [])
           else [])
     else []) /\
  w_fs (final (k w1)) = fst (dict2tsv (w_fs w1) res fn) /\
  w_best (final (k w1)) = w_best w1 /\
  w_passes (final (k w1)) = w_passes w1 /\
  w_grad (final (k w1)) = w_grad w1.
Proof.
  cbv zeta. unfold bind, call_dict2tsv, call_save, call_lr_sched, emit, ret.
  destruct (dict2tsv (w_fs w1) res fn) as [fs' [[]|e]];
    cbn [is_ok snd fst events outcome final app]; [|auto 10].
  destruct is_best; cbn [w_model set_fs fst snd].
  - destruct (model_save (w_model w1) tg) as [l' [[]|e]];
      cbn [is_ok snd fst events outcome final app set_model w_model];
      [|auto 10].
    destruct lr; cbn [w_model set_model];
      [destruct (model_lr_sched l') as [l'' [[]|e]]|]; cbn; auto 10.
  - destruct lr; cbn [w_model set_model set_fs];
      [destruct (model_lr_sched (w_model w1)) as [l'' [[]|e]]|]; cbn; auto 10.
Qed.

Lemma epoch_iteration_unfold (args : Args) (tl vl tel : DataLoader Batch)
    (epoch : Z) (w : World) :
  epoch_iteration args tl vl tel epoch w =
  match BestTracker (run_epoch epoch args tl vl tel) w with
  | (Ok (res, is_best), w1, t1) =>
      let '(r, w2, t2) :=
        (call_dict2tsv res (log_filename args) ;;
         (if is_best then call_save (task_tag args) else ret tt) ;;
         emit EvEmptyCache ;;
         (if lr_sched args then call_lr_sched else ret tt))%monad w1 in
      (r, w2, t1 ++ t2)
  | (Raise e, w1, t1) => (Raise e, w1, t1)
  end.
Proof.
  unfold epoch_iteration. unfold bind at 1.
  destruct (BestTracker (run_epoch epoch args tl vl tel) w)
    as [[[[res is_best]|e] w1] t1]; reflexivity.
Qed.

Lemma tracked_epoch_events epoch (args : Args) (tl vl tel : DataLoader Batch)
    (w : World) :
  Forall (fun e => is_phase e = true)
    (events (BestTracker (run_epoch epoch args tl vl tel) w)).
Proof. apply tracked_epoch_emits_phase. Qed.

(** X8. When [run_epoch] raises, the epoch iteration raises the same exception
    and does nothing more: no row is written, no checkpoint saved, and the
    file system and the tracker are as the iteration found them. *)
Theorem failed_epoch_writes_no_row
    (args : Args) (tl vl tel : DataLoader Batch) (epoch : Z) (w : World)
    (e : exn) :
  outcome (run_epoch epoch args tl vl tel w) = Raise e ->
  let x := epoch_iteration args tl vl tel epoch w in
  outcome x = Raise e /\
  events x = events (run_epoch epoch args tl vl tel w) /\
  writes (events x) = [] /\
  Forall (fun ev => is_save ev = false) (events x) /\
  w_fs (final x) = w_fs w /\
  w_best (final x) = w_best w.
Proof.
  intros Hraise x. subst x. rewrite epoch_iteration_unfold.
  destruct (BestTracker_transparent (run_epoch epoch args tl vl tel) w)
    as (Hev & _ & Hfs & _ & _ & Hr & _).
  destruct (Hr e Hraise) as (Hout & Hbest).
  pose proof (tracked_epoch_events epoch args tl vl tel w) as Hphase.
  destruct (run_epoch_keeps_frame epoch args tl vl tel w) as (_ & Hb & Hf).
  destruct (BestTracker (run_epoch epoch args tl vl tel) w)
    as [[[[res is_best]|e'] w1] t1]; cbn in Hout; [discriminate|].
  cbn [outcome events final fst snd] in *.
  destruct (phase_events_no_writes Hphase) as (Hw & _ & Hs & _).
  repeat split; try assumption; congruence.
Qed.

(** X9. In an epoch iteration whose decorated [run_epoch] returned: once the
    row is written and the checkpoint, if any is due, is saved, the
    iteration empties the CUDA cache and then, when [args.lr_sched] holds,
    steps the scheduler as its very last call; when the write or the save
    raises, neither happens. *)
Theorem scheduler_step_closes_the_iteration
    (args : Args) (tl vl tel : DataLoader Batch) (epoch : Z) (w : World)
    (res : OrderedDict.t) (is_best : bool) :
  let y := BestTracker (run_epoch epoch args tl vl tel) w in
  let x := epoch_iteration args tl vl tel epoch w in
  outcome y = Ok (res, is_best) ->
  let written :=
    is_ok (snd (dict2tsv (w_fs (final y)) res (log_filename args))) in
  let saved :=
    (negb is_best ||
     is_ok (snd (model_save (w_model (final y)) (task_tag args))))%bool in
  List.length (filter is_empty_cache (events x)) =
    (if (written && saved)%bool then 1 else 0)%nat /\
  List.length (filter is_lr_sched (events x)) =
    (if (written && saved && lr_sched args)%bool then 1 else 0)%nat /\
  ((written && saved)%bool = true ->
   if lr_sched args
   then exists t0 ok, events x = t0 ++ [EvEmptyCache; EvLrSched ok] /\
                      is_ok (outcome x) = ok
   else exists t0, events x = t0 ++ [EvEmptyCache] /\ outcome x = Ok tt) /\
  ((written && saved)%bool = false -> is_ok (outcome x) = false).
Proof.
  intros y x Hy written saved. subst x written saved.
  rewrite epoch_iteration_unfold.
  pose proof (tracked_epoch_events epoch args tl vl tel w) as Hphase.
  fold y in Hphase |- *.
  destruct y as [[r w1] t1]. cbn [outcome events final fst snd] in *. subst r.
  destruct (phase_events_no_writes Hphase) as (_ & _ & _ & Hc & Hl).
  destruct (after_epoch_exact (lr_sched args) (log_filename args)
              (task_tag args) res is_best w1) as (Hout & Hev & _).
  cbv zeta in Hout, Hev.
  match type of Hev with
  | events ?k = _ => destruct k as [[r2 w2] t2]
  end.
  cbn [outcome events fst snd] in Hout, Hev |- *. subst r2 t2.
  rewrite !filter_app, Hc, Hl. cbn [app].
  destruct (dict2tsv (w_fs w1) res (log_filename args)) as [fs' [[]|e]];
    cbn [snd is_ok andb]; [|cbn; auto 10; repeat split; discriminate].
  destruct is_best; cbn [negb orb fst snd].
  - destruct (model_save (w_model w1) (task_tag args)) as [l' [[]|e]];
      cbn [snd fst is_ok andb app];
      [|cbn; repeat split; discriminate].
    destruct (lr_sched args); cbn.
    + repeat split; try discriminate. intros _.
      exists (t1 ++ [EvDict2tsv res (log_filename args) true;
                     EvSave (task_tag args) true]), (is_ok (snd (model_lr_sched l'))).
      rewrite <- app_assoc. split; reflexivity.
    + repeat split; try discriminate. intros _.
      exists (t1 ++ [EvDict2tsv res (log_filename args) true;
                     EvSave (task_tag args) true]).
      rewrite <- app_assoc. split; reflexivity.
  - destruct (lr_sched args); cbn.
    + repeat split; try discriminate. intros _.
      exists (t1 ++ [EvDict2tsv res (log_filename args) true]),
        (is_ok (snd (model_lr_sched (w_model w1)))).
      rewrite <- app_assoc. split; reflexivity.
    + repeat split; try discriminate. intros _.
      exists (t1 ++ [EvDict2tsv res (log_filename args) true]).
      rewrite <- app_assoc. split; reflexivity.
Qed.

End Iteration.

Lemma failed_epoch_writes_no_row_witness :
  let args := stub_args "MAML" 1 10 1 in
  let tl := fixed_loader SplitTrain [0; 1; 3; 4]%nat in
  let x := epoch_iteration (learner := flaky_learner) args tl
             (stub_loader SplitVal) (stub_loader SplitTest) 0 stub_world in
  outcome x = Raise (Failure "diverged") /\
  events x = events (run_epoch (learner := flaky_learner) 0 args tl
                       (stub_loader SplitVal) (stub_loader SplitTest)
                       stub_world) /\
  writes (events x) = [] /\
  Forall (fun ev => is_save ev = false) (events x) /\
  w_fs (final x) = w_fs stub_world /\
  w_best (final x) = w_best stub_world.
Proof.
  apply (@failed_epoch_writes_no_row nat state _ flaky_learner stub_collab
           (stub_args "MAML" 1 10 1)
           (fixed_loader SplitTrain [0; 1; 3; 4]%nat)
           (stub_loader SplitVal) (stub_loader SplitTest) 0 stub_world
           (Failure "diverged")).
  vm_compute. reflexivity.
Defined.

Lemma scheduler_step_closes_the_iteration_witness :
  let args := stub_args_with false false true 1 2 1 in
  let x := epoch_iteration (learner := stub_learner) args
             (stub_loader SplitTrain) (stub_loader SplitVal)
             (stub_loader SplitTest) 0 stub_world in
  List.length (filter is_empty_cache (events x)) = 1%nat /\
  List.length (filter is_lr_sched (events x)) = 1%nat /\
  exists t0 ok, events x = t0 ++ [EvEmptyCache; EvLrSched ok] /\
                is_ok (outcome x) = ok.
Proof.
  pose proof (@scheduler_step_closes_the_iteration nat state _ stub_learner
                stub_collab (stub_args_with false false true 1 2 1)
                (stub_loader SplitTrain) (stub_loader SplitVal)
                (stub_loader SplitTest) 0 stub_world scenario_row true) as H.
  cbv zeta in H.
  destruct (H ltac:(vm_compute; reflexivity)) as (Hc & Hl & Hlast & _).
  split; [exact Hc|]. split; [exact Hl|]. apply Hlast. reflexivity.
Defined.

(* ================================================================== *)
(** ** The epoch loop and [main] *)

Section MainRun.

Context {Batch L F : Type}.
Context {learner : MetaLearner Batch L}.
Context {collab : Collaborators Batch F}.

Local Abbreviation M := (@M Batch L F).
Local Abbreviation World := (@World L F).
Local Abbreviation event := (@event Batch).

(** One iteration writes at most one row, for its own epoch and to the
    result file; it returns only when the row was written. *)
Lemma epoch_iteration_row (args : Args) (tl vl tel : DataLoader Batch)
    (i : Z) (w : World) :
  let x := epoch_iteration args tl vl tel i w in
  loaders_built (events x) = [] /\
  ((writes (events x) = [] /\ is_ok (outcome x) = false) \/
   exists res ok,
     writes (events x) = [(res, log_filename args, ok)] /\
     OrderedDict.get res "epoch" = Some (PyInt i) /\
     (is_ok (outcome x) = true -> ok = true)).
Proof.
  intro x. subst x. rewrite epoch_iteration_unfold.
  pose proof (tracked_epoch_events i args tl vl tel w) as Hphase.
  destruct (BestTracker_transparent (run_epoch i args tl vl tel) w)
    as (_ & _ & _ & _ & _ & _ & Hok).
  destruct (BestTracker (run_epoch i args tl vl tel) w)
    as [[[[res is_best]|e] w1] t1]; cbn [outcome events final fst snd] in *.
  - destruct (phase_events_no_writes Hphase) as (Hw & Hl & _).
    specialize (Hok res is_best eq_refl).
    apply run_epoch_result_epoch in Hok.
    destruct (after_epoch_exact (lr_sched args) (log_filename args)
                (task_tag args) res is_best w1) as (Hout & Hev & _).
    cbv zeta in Hout, Hev.
    match type of Hev with
    | events ?k = _ => destruct k as [[r2 w2] t2]
    end.
    cbn [outcome events fst snd] in Hout, Hev |- *. subst r2 t2.
    rewrite writes_app, loaders_built_app, Hw, Hl. cbn [app].
    split.
    + destruct (dict2tsv (w_fs w1) res (log_filename args)) as [fs' [[]|e]];
        cbn [snd is_ok]; [|reflexivity].
      destruct is_best; cbn [fst snd];
        [destruct (model_save (w_model w1) (task_tag args)) as [l' [[]|e]]|];
        cbn [fst snd is_ok]; destruct (lr_sched args); reflexivity.
    + right. exists res, (is_ok (snd (dict2tsv (w_fs w1) res (log_filename args)))).
      split; [|split; [exact Hok|]].
      * destruct (dict2tsv (w_fs w1) res (log_filename args)) as [fs' [[]|e]];
          cbn [snd is_ok]; [|reflexivity].
        destruct is_best; cbn [fst snd];
          [destruct (model_save (w_model w1) (task_tag args)) as [l' [[]|e]]|];
          cbn [fst snd is_ok]; destruct (lr_sched args); reflexivity.
      * destruct (dict2tsv (w_fs w1) res (log_filename args)) as [fs' [[]|e]];
          cbn [snd is_ok]; [reflexivity|discriminate].
  - destruct (phase_events_no_writes Hphase) as (Hw & Hl & _).
    split; [exact Hl|]. left. split; [exact Hw|reflexivity].
Qed.

Lemma for_range_S (count : nat) (i : Z) (body : Z -> M unit) (w : World) :
  for_range (S count) i body w =
  match body i w with
  | (Ok _, w1, t1) =>
      let '(r, w2, t2) := for_range count (i + 1) body w1 in (r, w2, t1 ++ t2)
  | (Raise e, w1, t1) => (Raise e, w1, t1)
  end.
Proof.
  cbn [for_range]. unfold bind at 1.
  destruct (body i w) as [[[[]|e] w1] t1]; reflexivity.
Qed.

(** The rows of a run of the epoch loop. *)
Lemma for_range_rows (args : Args) (tl vl tel : DataLoader Batch) :
  forall (count : nat) (i : Z) (w : World),
    let x := for_range count i (epoch_iteration args tl vl tel) w in
    let ws := writes (events x) in
    loaders_built (events x) = [] /\
    (List.length ws <= count)%nat /\
    (forall j, (j < List.length ws)%nat ->
       exists res ok,
         nth_error ws j = Some (res, log_filename args, ok) /\
         OrderedDict.get res "epoch" = Some (PyInt (i + Z.of_nat j)) /\
         (S j < List.length ws -> ok = true)%nat /\
         (is_ok (outcome x) = true -> ok = true)) /\
    (is_ok (outcome x) = true -> List.length ws = count).
Proof.
  induction count as [|count IH]; intros i w x ws; subst ws x.
  - cbn. repeat split; auto; intros; lia.
  - rewrite for_range_S.
    destruct (epoch_iteration_row args tl vl tel i w) as (Hl & Hrow).
    cbv zeta in Hl, Hrow.
    destruct (epoch_iteration args tl vl tel i w) as [[[[]|e] w1] t1];
      cbn [outcome events final fst snd] in *.
    + specialize (IH (i + 1)%Z w1). cbv zeta in IH.
      destruct (for_range count (i + 1) (epoch_iteration args tl vl tel) w1)
        as [[r w2] t2]. cbn [outcome events final fst snd] in *.
      destruct IH as (Hl2 & Hlen & Hrows & Hdone).
      destruct Hrow as [[_ Hno]|(res & ok & Hw & He & Hk)]; [discriminate|].
      specialize (Hk eq_refl). subst ok.
      rewrite writes_app, loaders_built_app, Hl, Hl2, Hw.
      cbn [app List.length].
      split; [reflexivity|]. split; [lia|]. split.
      * intros [|j] Hj.
        -- exists res, true. cbn [nth_error].
           rewrite Z.add_0_r. auto.
        -- destruct (Hrows j ltac:(lia)) as (res' & ok' & Hn & He' & Hs & Hd).
           exists res', ok'. cbn [nth_error].
           split; [exact Hn|]. split; [rewrite He'; f_equal; f_equal; lia|].
           split; [intro; apply Hs; lia|exact Hd].
      * intro H. rewrite (Hdone H). reflexivity.
    + destruct Hrow as [[Hw _]|(res & ok & Hw & He & Hk)]; rewrite Hw;
        cbn [List.length].
      * repeat split; auto; try lia; try discriminate; intros; lia.
      * split; [exact Hl|]. split; [lia|]. split; [|discriminate].
        intros [|j] Hj; [|lia].
        exists res, ok. cbn [nth_error]. rewrite Z.add_0_r.
        repeat split; auto; try lia; discriminate.
Qed.

(** [main] once the learner exists: the checkpoint is loaded, then the
    three loaders are built, then the epochs run; a load that raises ends
    the run there. *)
Lemma main_with_model_exact (args : Args) (w : World) :
  let pre :=
    (if load args then call_load
     else if load_encoder args then call_load_encoder
     else ret tt) w in
  let loop :=
    for_range (Z.to_nat (num_epoch args)) 0
      (epoch_iteration args
         (mkLoader SplitTrain (loader_pass args SplitTrain))
         (mkLoader SplitVal (loader_pass args SplitVal))
         (mkLoader SplitTest (loader_pass args SplitTest))) (final pre) in
  main_with_model args w =
  match outcome pre with
  | Raise e => (Raise e, final pre, events pre)
  | Ok _ =>
      (outcome loop, final loop,
       events pre ++
       [EvLoader SplitTrain; EvLoader SplitVal; EvLoader SplitTest] ++
       events loop)
  end.
Proof.
  cbv zeta. unfold main_with_model. unfold bind at 1.
  destruct ((if load args then call_load
             else if load_encoder args then call_load_encoder
             else ret tt) w) as [[[[]|e] w1] t1];
    cbn [outcome events final fst snd]; [|reflexivity].
  unfold make_loader, bind, emit, ret. cbn.
  destruct (for_range _ _ _ w1) as [[r w2] t2]. reflexivity.
Qed.

Lemma load_events (args : Args) (w : World) :
  let pre :=
    (if load args then call_load
     else if load_encoder args then call_load_encoder
     else ret tt) w in
  writes (events pre) = [] /\ loaders_built (events pre) = [] /\
  processed (events pre) = [] /\
  w_fs (final pre) = w_fs w /\ w_passes (final pre) = w_passes w.
Proof.
  cbv zeta. unfold call_load, call_load_encoder, ret.
  destruct (load args); [|destruct (load_encoder args)].
  - destruct (model_load (w_model w)) as [l' r]. cbn. auto.
  - destruct (model_load_encoder (w_model w)) as [l' r]. cbn. auto.
  - cbn. auto.
Qed.

(** X10. The rows that a run of [main] writes, whatever the learner, the
    loaders and the file system do and wherever the run ends: they are the
    rows of the epochs 0, 1, 2, ... in this order, one per epoch and at
    most [num_epoch] of them, all written to the result file of the run;
    every write but the last one returned; and when [main] returns there
    are exactly [num_epoch] of them (none when [num_epoch] is negative) and
    the last write returned as well. *)
Theorem logged_rows_are_consecutive_epochs (args : Args) (fs : F) :
  let x := main args fs in
  let ws := writes (snd x) in
  (List.length ws <= Z.to_nat (num_epoch args))%nat /\
  (forall j, (j < List.length ws)%nat ->
     exists res ok,
       nth_error ws j = Some (res, log_filename args, ok) /\
       OrderedDict.get res "epoch" = Some (PyInt (Z.of_nat j)) /\
       (S j < List.length ws -> ok = true)%nat /\
       (is_ok (fst (fst x)) = true -> ok = true)) /\
  (is_ok (fst (fst x)) = true ->
   List.length ws = Z.to_nat (num_epoch args)).
Proof.
  intros x ws. subst ws x. unfold main.
  destruct (select_alg (alg args)) as [a|];
    [|cbn; repeat split; try lia; try discriminate; intros; lia].
  set (w0 := mkWorld _ _ _ _ _).
  rewrite main_with_model_exact.
  destruct (load_events args w0) as (Hw & _).
  cbv zeta in Hw.
  destruct ((if load args then call_load
             else if load_encoder args then call_load_encoder
             else ret tt) w0) as [[[[]|e] w1] t1];
    cbn [outcome events final fst snd] in *.
  - pose proof (for_range_rows args
                  (mkLoader SplitTrain (loader_pass args SplitTrain))
                  (mkLoader SplitVal (loader_pass args SplitVal))
                  (mkLoader SplitTest (loader_pass args SplitTest))
                  (Z.to_nat (num_epoch args)) 0 w1) as H.
    cbv zeta in H.
    destruct (for_range _ _ _ w1) as [[r w2] t2].
    cbn [outcome events final fst snd] in *.
    change (EvNew a :: t1 ++ [EvLoader SplitTrain; EvLoader SplitVal;
                             EvLoader SplitTest] ++ t2)
      with ([EvNew a] ++ t1 ++ [EvLoader SplitTrain; EvLoader SplitVal;
                                EvLoader SplitTest] ++ t2).
    rewrite !writes_app, Hw. cbn [writes flat_map app].
    destruct H as (_ & Hlen & Hrows & Hdone).
    split; [exact Hlen|]. split; [|exact Hdone].
    intros j Hj. destruct (Hrows j Hj) as (res & ok & Hn & He & Hs & Hd).
    exists res, ok. rewrite Z.add_0_l in He. auto.
  - change (EvNew a :: t1) with ([EvNew a] ++ t1).
    rewrite writes_app, Hw. cbn.
    repeat split; try lia; try discriminate; intros; lia.
Qed.

End MainRun.

(* ================================================================== *)
(** ** Runs of [main] from start to end *)

Section Completion.

Context {Batch L F : Type}.
Context {learner : MetaLearner Batch L}.
Context {collab : Collaborators Batch F}.

Local Abbreviation M := (@M Batch L F).
Local Abbreviation World := (@World L F).
Local Abbreviation event := (@event Batch).

Lemma filter_none {A : Type} (p : A -> bool) (l : list A) :
  Forall (fun a => p a = false) l -> filter p l = [].
Proof.
  induction 1 as [|a l Ha _ IH]; [reflexivity|]. cbn. rewrite Ha. exact IH.
Qed.

(** With a learner that keeps to the shape of the contract, [run_epoch]
    returns a row with its two tracked keys, after one pass over each of
    its loaders. *)
Lemma run_epoch_ok
    (Htrain : replies_train learner) (Heval : replies_eval learner)
    (epoch : Z) (args : Args) (tl vl tel : DataLoader Batch) (w : World) :
  let x := run_epoch epoch args tl vl tel w in
  exists res v,
    x = (Ok res, final x, events x) /\
    OrderedDict.get res "valid_acc" = Some (PyFloat v) /\
    OrderedDict.get res "epoch" = Some (PyInt epoch) /\
    w_passes (final x) =
      one_more_pass (dl_split tel)
        (one_more_pass (dl_split vl)
           (one_more_pass (dl_split tl) (w_passes w))).
Proof.
  intro x. subst x.
  destruct (train_returns Htrain args tl w) as (s1 & w1 & t1 & H1).
  destruct (valid_returns Heval args vl w1) as (s2 & w2 & t2 & H2).
  destruct (valid_returns Heval args tel w2) as (s3 & w3 & t3 & H3).
  rewrite (run_epoch_steps epoch args tl vl tel w H1 H2 H3).
  destruct (train_world args tl w) as (_ & P1).
  destruct (valid_world args vl w1) as (_ & P2).
  destruct (valid_world args tel w2) as (_ & P3).
  rewrite H1 in P1. rewrite H2 in P2. rewrite H3 in P3.
  cbn [final fst snd] in P1, P2, P3.
  eexists _, (snd s2). cbn [final events fst snd].
  split; [reflexivity|]. split; [reflexivity|]. split; [reflexivity|].
  rewrite P3, P2, P1. reflexivity.
Qed.

Section Reliable.

Hypothesis Htrain : replies_train learner.
Hypothesis Heval : replies_eval learner.
Hypothesis Hlearner : learner_never_raises learner.
Hypothesis Hsink : sink_never_raises collab.

Lemma epoch_iteration_completes (args : Args) (tl vl tel : DataLoader Batch)
    (i : Z) (w : World) :
  dl_split tl = SplitTrain -> dl_split vl = SplitVal ->
  dl_split tel = SplitTest ->
  iteration_done (lr_sched args) 1 w (epoch_iteration args tl vl tel i w).
Proof.
  intros S1 S2 S3. rewrite epoch_iteration_unfold.
  destruct (run_epoch_ok Htrain Heval i args tl vl tel w)
    as (res & v & Hx & Hv & He & Hp).
  pose proof (tracked_epoch_events i args tl vl tel w) as Hphase.
  pose proof (run_epoch_keeps_frame i args tl vl tel w) as (Hg & _).
  rewrite (BestTracker_step _ w Hx Hv He) in Hphase |- *.
  set (w1 := final (run_epoch i args tl vl tel w)) in *.
  set (t1 := events (run_epoch i args tl vl tel w)) in *.
  assert (Hbt : exists b wb,
             (if np_gt v (best_value (w_best w1))
              then (Ok (res, true), set_best w1 (mkBest v i), t1)
              else (Ok (res, false), w1, t1))
             = (Ok (res, b), wb, t1) /\
             w_passes wb = w_passes w1 /\ w_grad wb = w_grad w1).
  { destruct (np_gt v (best_value (w_best w1))); eauto 10. }
  destruct Hbt as (b & wb & -> & Hpb & Hgb).
  assert (Ht1 : Forall (fun e => is_phase e = true) t1).
  { destruct (np_gt v (best_value (w_best w1))); exact Hphase. }
  clear Hphase.
  destruct (phase_events_no_writes Ht1) as (Hw & Hl & Hs & Hc & Hr).
  destruct (after_epoch_exact (lr_sched args) (log_filename args)
              (task_tag args) res b wb) as (Hout & Hev & _ & _ & Hpass & Hgrad).
  cbv zeta in Hout, Hev, Hpass, Hgrad.
  destruct Hlearner as (_ & _ & Hsave & Hsched).
  rewrite (Hsink (w_fs wb) res (log_filename args)) in Hout, Hev.
  assert (Hsaved : snd (if b then model_save (w_model wb) (task_tag args)
                        else (w_model wb, Ok tt)) = Ok tt).
  { destruct b; [apply Hsave|reflexivity]. }
  rewrite Hsaved in Hout, Hev.
  assert (Hstep : snd (if lr_sched args
                       then model_lr_sched
                              (fst (if b then model_save (w_model wb) (task_tag args)
                                    else (w_model wb, Ok tt)))
                       else (fst (if b then model_save (w_model wb) (task_tag args)
                                  else (w_model wb, Ok tt)), Ok tt)) = Ok tt).
  { destruct (lr_sched args); [apply Hsched|reflexivity]. }
  rewrite Hstep in Hout, Hev. cbn [is_ok] in Hev.
  match type of Hev with
  | events ?k = _ => destruct k as [[r2 w2] t2]
  end.
  cbn [outcome events final fst snd] in *. subst r2 t2.
  unfold iteration_done. cbn [outcome events final fst snd].
  rewrite writes_app, loaders_built_app, !filter_app, Hw, Hl, Hc, Hr,
    (filter_none _ Hs).
  split; [reflexivity|].
  repeat split.
  - destruct b, (lr_sched args); reflexivity.
  - destruct b, (lr_sched args); reflexivity.
  - destruct b, (lr_sched args); reflexivity.
  - destruct b, (lr_sched args); cbn; lia.
  - destruct b, (lr_sched args); reflexivity.
  - intro s. rewrite Hpass, Hpb. subst w1. rewrite Hp, S1, S2, S3.
    destruct s; cbn; lia.
  - rewrite Hgrad, Hgb. exact Hg.
Qed.



Lemma after_epoch_no_batches (lr : bool) (fn tg : string)
    (res : OrderedDict.t) (is_best : bool) (w1 : World) :
  processed
    (events ((call_dict2tsv res fn ;;
              (if is_best then call_save tg else ret tt) ;;
              emit EvEmptyCache ;;
              (if lr then call_lr_sched else ret tt))%monad w1)) = [].
Proof.
  destruct (after_epoch_exact lr fn tg res is_best w1) as (_ & Hev & _).
  cbv zeta in Hev. rewrite Hev.
  destruct (is_ok (snd (dict2tsv (w_fs w1) res fn))); [|reflexivity].
  destruct is_best;
    match goal with
    | |- context [is_ok ?r] => destruct (is_ok r)
    end; destruct lr; reflexivity.
Qed.

(** The batches of an iteration are the batches of its [run_epoch]. *)
Lemma epoch_iteration_processed (args : Args) (tl vl tel : DataLoader Batch)
    (i : Z) (w : World) :
  processed (events (epoch_iteration args tl vl tel i w)) =
  processed (events (run_epoch i args tl vl tel w)).
Proof.
  rewrite epoch_iteration_unfold.
  destruct (BestTracker_transparent (run_epoch i args tl vl tel) w)
    as (Hev & _).
  destruct (BestTracker (run_epoch i args tl vl tel) w)
    as [[[[res is_best]|e] w1] t1]; cbn [events snd] in Hev; rewrite <- Hev;
    [|reflexivity].
  pose proof (after_epoch_no_batches (lr_sched args) (log_filename args)
                (task_tag args) res is_best w1) as Hno.
  match type of Hno with
  | processed (events ?k) = _ => destruct k as [[r2 w2] t2]
  end.
  cbn [events snd] in Hno |- *.
  rewrite processed_app, Hno, app_nil_r. reflexivity.
Qed.

Lemma run_epoch_processed (epoch : Z) (args : Args)
    (tl vl tel : DataLoader Batch) (w : World) :
  dl_split tl = SplitTrain -> dl_split vl = SplitVal ->
  dl_split tel = SplitTest ->
  processed (events (run_epoch epoch args tl vl tel w)) =
  firstn (batches_run (num_train_batches args) 0)
    (dl_pass tl (w_passes w SplitTrain)) ++
  firstn (batches_run (num_valid_batches args) 0)
    (dl_pass vl (w_passes w SplitVal)) ++
  firstn (batches_run (num_valid_batches args) 0)
    (dl_pass tel (w_passes w SplitTest)).
Proof.
  intros S1 S2 S3.
  destruct (train_returns Htrain args tl w) as (s1 & w1 & t1 & H1).
  destruct (valid_returns Heval args vl w1) as (s2 & w2 & t2 & H2).
  destruct (valid_returns Heval args tel w2) as (s3 & w3 & t3 & H3).
  rewrite (run_epoch_steps epoch args tl vl tel w H1 H2 H3).
  destruct (train_world args tl w) as (_ & P1).
  destruct (valid_world args vl w1) as (_ & P2).
  destruct (train_run Htrain args tl w) as (_ & B1 & _).
  destruct (valid_run Heval args vl w1) as (_ & B2 & _).
  destruct (valid_run Heval args tel w2) as (_ & B3 & _).
  rewrite H1 in P1, B1. rewrite H2 in P2, B2. rewrite H3 in B3.
  cbn [final events fst snd] in *.
  change (EvPrint epoch :: t1 ++ t2 ++ t3)
    with ([EvPrint epoch] ++ t1 ++ t2 ++ t3).
  rewrite !processed_app, B1, B2, B3, P2, P1, S1, S2, S3. reflexivity.
Qed.

Lemma for_range_processed (args : Args) (tl vl tel : DataLoader Batch) :
  dl_split tl = SplitTrain -> dl_split vl = SplitVal ->
  dl_split tel = SplitTest ->
  forall (count : nat) (i : Z) (w : World) (p : nat),
    (forall s, w_passes w s = p) ->
    processed (events (for_range count i (epoch_iteration args tl vl tel) w)) =
    flat_map
      (fun e =>
         firstn (batches_run (num_train_batches args) 0) (dl_pass tl e) ++
         firstn (batches_run (num_valid_batches args) 0) (dl_pass vl e) ++
         firstn (batches_run (num_valid_batches args) 0) (dl_pass tel e))
      (seq p count).
Proof.
  intros S1 S2 S3. induction count as [|count IH]; intros i w p Hp.
  - reflexivity.
  - rewrite for_range_S.
    pose proof (epoch_iteration_completes args tl vl tel i w S1 S2 S3) as H.
    pose proof (epoch_iteration_processed args tl vl tel i w) as Hb.
    rewrite (run_epoch_processed i args tl vl tel w S1 S2 S3), !Hp in Hb.
    destruct (epoch_iteration args tl vl tel i w) as [[r w1] t1].
    unfold iteration_done in H. cbn [outcome events final fst snd] in H, Hb.
    destruct H as (-> & _ & _ & _ & _ & _ & Hp1 & _).
    specialize (IH (i + 1)%Z w1 (S p)).
    destruct (for_range count (i + 1) (epoch_iteration args tl vl tel) w1)
      as [[r w2] t2].
    cbn [events snd] in IH |- *.
    rewrite processed_app, Hb, IH.
    + cbn [seq flat_map]. reflexivity.
    + intro s. rewrite Hp1, Hp. lia.
Qed.

(** X12. With the same reliable collaborators, the batches that a whole run of
    [main] hands to [outer_loop] are, epoch after epoch, the first batches
    of the train pass, then of the validation pass, then of the test pass,
    each cut by the budget of its phase; the epoch of index [e] reads pass
    number [e] of each of the three loaders. *)
Theorem main_processes_batches_epoch_by_epoch
    (args : Args) (fs : F) (a : Alg) :
  alg args = alg_name a ->
  processed (snd (main args fs)) =
  flat_map (epoch_batches args) (seq 0 (Z.to_nat (num_epoch args))).
Proof.
  intros Ha. unfold main. rewrite Ha, select_alg_name.
  set (w0 := mkWorld _ _ _ _ _).
  rewrite main_with_model_exact.
  destruct (load_events args w0) as (_ & _ & Hb & _ & Hp).
  cbv zeta in Hb, Hp.
  assert (Hok : outcome ((if load args then call_load
                          else if load_encoder args then call_load_encoder
                          else ret tt) w0) = Ok tt).
  { destruct Hlearner as (Hload & Henc & _).
    unfold call_load, call_load_encoder, ret.
    destruct (load args); [|destruct (load_encoder args)].
    - specialize (Hload (w_model w0)).
      destruct (model_load (w_model w0)) as [l' r]. exact Hload.
    - specialize (Henc (w_model w0)).
      destruct (model_load_encoder (w_model w0)) as [l' r]. exact Henc.
    - reflexivity. }
  destruct ((if load args then call_load
             else if load_encoder args then call_load_encoder
             else ret tt) w0) as [[r w1] t1].
  cbn [outcome events final fst snd] in *. subst r.
  pose proof (for_range_processed args
                (mkLoader SplitTrain (loader_pass args SplitTrain))
                (mkLoader SplitVal (loader_pass args SplitVal))
                (mkLoader SplitTest (loader_pass args SplitTest))
                eq_refl eq_refl eq_refl
                (Z.to_nat (num_epoch args)) 0 w1
                (fun s => f_equal (fun passes => passes s) Hp)) as H.
  destruct (for_range _ _ _ w1) as [[r w2] t2].
  cbn [events snd] in H |- *.
  change (EvNew a :: t1 ++ [EvLoader SplitTrain; EvLoader SplitVal;
                           EvLoader SplitTest] ++ t2)
    with ([EvNew a] ++ t1 ++ [EvLoader SplitTrain; EvLoader SplitVal;
                              EvLoader SplitTest] ++ t2).
  rewrite !processed_app, Hb, H. reflexivity.
Qed.

End Reliable.

(** X13. When the checkpoint that [main] is asked to load cannot be loaded, the
    exception ends the run right there: the learner was built and the load
    attempted, and nothing else happened; no loader was built, no epoch
    run and the file system is untouched. *)
Theorem failed_load_aborts_main (args : Args) (fs : F) (a : Alg) (e : exn) :
  alg args = alg_name a ->
  (if load args then snd (model_load (model_new a args))
   else if load_encoder args then snd (model_load_encoder (model_new a args))
   else Ok tt) = Raise e ->
  let x := main args fs in
  fst (fst x) = Raise e /\
  snd x = [EvNew a; if load args then EvLoad false else EvLoadEncoder false] /\
  exists w, snd (fst x) = Some w /\ w_fs w = fs /\
            (forall s, w_passes w s = 0%nat).
Proof.
  intros Ha Hload x. subst x. unfold main.
  rewrite Ha, select_alg_name.
  set (w0 := mkWorld _ _ _ _ _).
  rewrite main_with_model_exact.
  unfold call_load, call_load_encoder, ret.
  destruct (load args); [|destruct (load_encoder args)]; [| |discriminate].
  - change (w_model w0) with (model_new a args).
    destruct (model_load (model_new a args)) as [l' r]. cbn in Hload. subst r.
    cbn. split; [reflexivity|]. split; [reflexivity|].
    eexists. split; [reflexivity|]. cbn. auto.
  - change (w_model w0) with (model_new a args).
    destruct (model_load_encoder (model_new a args)) as [l' r].
    cbn in Hload. subst r.
    cbn. split; [reflexivity|]. split; [reflexivity|].
    eexists. split; [reflexivity|]. cbn. auto.
Qed.


End Completion.

Lemma steady_replies_train : replies_train steady_learner.
Proof. intros l b g. cbn. do 4 eexists. reflexivity. Qed.

Lemma steady_replies_eval : replies_eval steady_learner.
Proof. intros l b g. cbn. do 3 eexists. reflexivity. Qed.

Lemma steady_never_raises : learner_never_raises steady_learner.
Proof. repeat split. Qed.

Lemma stub_sink_never_raises : sink_never_raises stub_collab.
Proof. intros fs res filename. reflexivity. Qed.


Lemma main_processes_batches_epoch_by_epoch_witness :
  processed (snd (main (learner := steady_learner)
                    (stub_args_with false false false 2 2 1) [])) =
  [0; 1; 2; 0; 1; 0; 1; 0; 1; 2; 0; 1; 0; 1]%nat.
Proof.
  exact (@main_processes_batches_epoch_by_epoch nat state
           (list (string * OrderedDict.t)) steady_learner stub_collab
           steady_replies_train steady_replies_eval steady_never_raises
           stub_sink_never_raises (stub_args_with false false false 2 2 1) []
           MAML eq_refl).
Defined.

Lemma failed_load_aborts_main_witness :
  let x := main (learner := unloadable_learner)
             (stub_args_with true true false 3 2 1) [] in
  fst (fst x) = Raise (Failure "no checkpoint") /\
  snd x = [EvNew MAML; EvLoad false] /\
  exists w, snd (fst x) = Some w /\ w_fs w = [] /\
            (forall s, w_passes w s = 0%nat).
Proof.
  exact (@failed_load_aborts_main nat state (list (string * OrderedDict.t))
           unloadable_learner stub_collab
           (stub_args_with true true false 3 2 1) [] MAML
           (Failure "no checkpoint") eq_refl eq_refl).
Defined.


(* ================================================================== *)
(** ** The name of the result file *)






